(** * hosting.de DNS provider (providers/dns/hostingde/hostingde.go)

    A shallow embedding of the provider: the request structs and their JSON
    encoding, the response structs and their JSON decoding, the HTTP exchange
    of [doRequest] over an explicit world, and [Present] / [CleanUp] /
    [NewDNSProviderCredentials] on top of them.

    Go strings are byte sequences: they are [string] here (a list of 8-bit
    [ascii]).  Go's [int] is [Z]; [is_int] is its 64-bit range.  The parts of
    Go's standard library the provider calls (encoding/json, io, net/http) are
    modelled next to the code that uses them. *)

From Stdlib Require Import String Ascii List ZArith Lia Bool.
From Stdlib Require Import Decimal DecimalString DecimalPos DecimalZ.
From Stdlib Require DecimalFacts.
Import ListNotations.
Open Scope string_scope.

(** ** Bytes and characters *)

(** The double quote, the line feed and the other control characters Go's
    encoder names. *)
Definition dquote : ascii := "034"%char.
Definition LF : ascii := "010"%char.
Definition CR : ascii := "013"%char.
Definition TAB : ascii := "009"%char.
Definition backslash : ascii := "\"%char.

Definition byte_val (c : ascii) : nat := nat_of_ascii c.

Definition in_range (lo hi : nat) (c : ascii) : bool :=
  (lo <=? byte_val c)%nat && (byte_val c <=? hi)%nat.

Definition is_byte (n : nat) (c : ascii) : bool := (byte_val c =? n)%nat.

(** [hex[n]] of encoding/json: the lower-case hexadecimal digit of [n < 16]. *)
Definition hex (n : nat) : ascii :=
  match String.get n "0123456789abcdef" with
  | Some c => c
  | None => "0"%char
  end.

Definition str1 (c : ascii) : string := String c EmptyString.

(** [strconv.Itoa]: the decimal text of an [int]. *)
Definition itoa (z : Z) : string := NilZero.string_of_int (Z.to_int z).

Definition is_intb (z : Z) : bool := ((- 2 ^ 63 <=? z) && (z <? 2 ^ 63))%Z.

(** ** UTF-8 (unicode/utf8) *)

(** The next [k] bytes exist and are continuation bytes (0x80..0xBF). *)
Fixpoint continuation (k : nat) (s : string) : bool :=
  match k with
  | O => true
  | S k' =>
    match s with
    | String b t => in_range 0x80 0xBF b && continuation k' t
    | EmptyString => false
    end
  end.

(** [utf8.DecodeRuneInString], as far as its width: the number of bytes of the
    well-formed sequence that starts [s], and [0] where Go answers
    [(RuneError, 1)] (an ill-formed or truncated sequence) or [s] is empty. *)
Definition utf8_width (s : string) : nat :=
  match s with
  | EmptyString => 0
  | String b0 t =>
    let second (lo hi size : nat) : nat :=
      match t with
      | String b1 t1 =>
        if in_range lo hi b1 && continuation (size - 2) t1 then size else 0
      | EmptyString => 0
      end in
    if (byte_val b0 <? 0x80)%nat then 1
    else if in_range 0xC2 0xDF b0 then second 0x80 0xBF 2
    else if is_byte 0xE0 b0 then second 0xA0 0xBF 3
    else if is_byte 0xED b0 then second 0x80 0x9F 3
    else if in_range 0xE1 0xEF b0 then second 0x80 0xBF 3
    else if is_byte 0xF0 b0 then second 0x90 0xBF 4
    else if in_range 0xF1 0xF3 b0 then second 0x80 0xBF 4
    else if is_byte 0xF4 b0 then second 0x80 0x8F 4
    else 0
  end.

(** The encoding of U+FFFD, the replacement character. *)
Definition replacement : string :=
  String (ascii_of_nat 0xEF) (String (ascii_of_nat 0xBF) (str1 (ascii_of_nat 0xBD))).

(** ** encoding/json: values and their text *)

(** A JSON value.  A number keeps its literal text, as Go's decoder does until
    it knows the Go type it is stored into. *)
#[warnings="-register-all"]
Inductive json : Type :=
| JNull
| JBool (b : bool)
| JNumber (lit : string)
| JString (s : string)
| JArray (elems : list json)
| JObject (members : list (string * json)).

(** [htmlSafeSet]: the ASCII bytes the encoder copies as they are. *)
Definition htmlSafe (b : ascii) : bool :=
  (0x20 <=? byte_val b)%nat && (byte_val b <? 0x80)%nat
  && negb (is_byte 34 b) && negb (is_byte 92 b)
  && negb (is_byte 60 b) && negb (is_byte 62 b) && negb (is_byte 38 b).

(** The escape the encoder writes for an ASCII byte outside [htmlSafeSet]. *)
Definition escape_byte (b : ascii) : string :=
  if is_byte 92 b || is_byte 34 b then String backslash (str1 b)
  else if is_byte 10 b then String backslash "n"
  else if is_byte 13 b then String backslash "r"
  else if is_byte 9 b then String backslash "t"
  else String backslash
         ("u00" ++ String (hex (byte_val b / 16)) (str1 (hex (byte_val b mod 16)))).

(** U+2028 and U+2029 (E2 80 A8, E2 80 A9), which the encoder escapes. *)
Definition line_separator (s : string) : option ascii :=
  match s with
  | String b0 (String b1 (String b2 _)) =>
    if is_byte 0xE2 b0 && is_byte 0x80 b1 && in_range 0xA8 0xA9 b2
    then Some (hex (byte_val b2 mod 16)) else None
  | _ => None
  end.

(** The body of [encodeState.string] with [escapeHTML] set, between the two
    quotes.  [copy] bytes of a multi-byte rune are still to be copied, [skip]
    bytes of an escaped rune are still to be passed over. *)
Fixpoint escape_from (copy skip : nat) (s : string) : string :=
  match s with
  | EmptyString => EmptyString
  | String b t =>
    match skip, copy with
    | S k, _ => escape_from copy k t
    | O, S k => String b (escape_from k 0 t)
    | O, O =>
      if (byte_val b <? 0x80)%nat then
        if htmlSafe b then String b (escape_from 0 0 t)
        else escape_byte b ++ escape_from 0 0 t
      else
        match utf8_width s with
        | O => String backslash "ufffd" ++ escape_from 0 0 t
        | S w =>
          match line_separator s with
          | Some d => String backslash "u202" ++ String d (escape_from 0 2 t)
          | None => String b (escape_from w 0 t)
          end
        end
    end
  end.

(** [encodeState.string]: a Go string as a JSON string literal. *)
Definition encode_string (s : string) : string :=
  String dquote (escape_from 0 0 s ++ str1 dquote).

(** The compact text [json.Marshal] writes for a value: no white space, the
    members of an object in the order given. *)
Fixpoint render (j : json) : string :=
  match j with
  | JNull => "null"
  | JBool true => "true"
  | JBool false => "false"
  | JNumber lit => lit
  | JString s => encode_string s
  | JArray l =>
    "[" ++ (fix elems (l : list json) : string :=
              match l with
              | [] => ""
              | x :: r => render x ++ match r with [] => "" | _ => "," ++ elems r end
              end) l ++ "]"
  | JObject ms =>
    "{" ++ (fix members (ms : list (string * json)) : string :=
              match ms with
              | [] => ""
              | (k, v) :: r =>
                encode_string k ++ ":" ++ render v
                ++ match r with [] => "" | _ => "," ++ members r end
              end) ms ++ "}"
  end.

(** ** The request structs *)

(** A Go slice: [nil], or a (possibly empty) sequence of elements.  The two
    encode differently: [nil] as [null], an empty slice as [[]]. *)
Inductive slice (A : Type) : Type :=
| nil_slice
| mk_slice (elems : list A).
Arguments nil_slice {A}.
Arguments mk_slice {A} elems.

Definition slice_elems {A : Type} (s : slice A) : list A :=
  match s with
  | nil_slice => []
  | mk_slice l => l
  end.

(** [type RecordsAddRequest struct] *)
Record RecordsAddRequest : Type := mkRecordsAddRequest {
  add_Name : string;      (* json:"name" *)
  add_Type : string;      (* json:"type" *)
  add_Content : string;   (* json:"content" *)
  add_TTL : Z             (* json:"ttl" *)
}.

(** [type RecordsDeleteRequest struct] *)
Record RecordsDeleteRequest : Type := mkRecordsDeleteRequest {
  del_Name : string;      (* json:"name" *)
  del_Type : string;      (* json:"type" *)
  del_Content : string    (* json:"content" *)
}.

(** [type ZoneConfigSelector struct] *)
Record ZoneConfigSelector : Type := mkZoneConfigSelector {
  sel_Name : string       (* json:"name" *)
}.

(** [type ZoneUpdateRequest struct].  The embedded [ZoneConfigSelector] has a
    tag of its own, so it is encoded as the member ["zoneConfig"]. *)
Record ZoneUpdateRequest : Type := mkZoneUpdateRequest {
  AuthToken : string;                            (* json:"authToken" *)
  ZoneConfig : ZoneConfigSelector;               (* json:"zoneConfig" *)
  RecordsToAdd : slice RecordsAddRequest;        (* json:"recordsToAdd" *)
  RecordsToDelete : slice RecordsDeleteRequest   (* json:"recordsToDelete" *)
}.

(** What the reflection-driven encoder writes for each struct: its fields in
    declaration order under their tag names. *)
Definition marshal_RecordsAddRequest (r : RecordsAddRequest) : json :=
  JObject [("name", JString (add_Name r)); ("type", JString (add_Type r));
           ("content", JString (add_Content r)); ("ttl", JNumber (itoa (add_TTL r)))].

Definition marshal_RecordsDeleteRequest (r : RecordsDeleteRequest) : json :=
  JObject [("name", JString (del_Name r)); ("type", JString (del_Type r));
           ("content", JString (del_Content r))].

Definition marshal_ZoneConfigSelector (z : ZoneConfigSelector) : json :=
  JObject [("name", JString (sel_Name z))].

Definition marshal_slice {A : Type} (f : A -> json) (s : slice A) : json :=
  match s with
  | nil_slice => JNull
  | mk_slice l => JArray (map f l)
  end.

Definition marshal_ZoneUpdateRequest (r : ZoneUpdateRequest) : json :=
  JObject [("authToken", JString (AuthToken r));
           ("zoneConfig", marshal_ZoneConfigSelector (ZoneConfig r));
           ("recordsToAdd", marshal_slice marshal_RecordsAddRequest (RecordsToAdd r));
           ("recordsToDelete", marshal_slice marshal_RecordsDeleteRequest (RecordsToDelete r))].

(** ** Errors

    A Go [error], by where the provider gets it from. *)
Inductive error : Type :=
| errorString (msg : string)   (* errors.New, fmt.Errorf: an error that is its message *)
| SyntaxError                  (* *json.SyntaxError *)
| UnmarshalTypeError           (* *json.UnmarshalTypeError *)
| EOF                          (* io.EOF *)
| ErrUnexpectedEOF             (* io.ErrUnexpectedEOF *)
| ReadError (msg : string)     (* the error of a failed Read of a response body *)
| InvalidMethod.               (* http.NewRequest: "net/http: invalid method" *)

(** [json.Marshal] on a [ZoneUpdateRequest]: the text and a nil error (the
    struct holds nothing the encoder refuses). *)
Definition json_Marshal (r : ZoneUpdateRequest) : string * option error :=
  (render (marshal_ZoneUpdateRequest r), None).

(** ** encoding/json: reading a value *)

(** The value of a hexadecimal digit, either case. *)
Definition hex_val (c : ascii) : option N :=
  if in_range 48 57 c then Some (N_of_ascii c - 48)%N
  else if in_range 97 102 c then Some (N_of_ascii c - 87)%N
  else if in_range 65 70 c then Some (N_of_ascii c - 55)%N
  else None.

(** [getu4] on the four digits after a backslash and [u]. *)
Definition hex4 (a b c d : ascii) : option N :=
  match hex_val a, hex_val b, hex_val c, hex_val d with
  | Some x, Some y, Some z, Some w => Some (((x * 16 + y) * 16 + z) * 16 + w)%N
  | _, _, _, _ => None
  end.

Definition byte_of (n : N) : ascii := ascii_of_N n.

(** [utf8.EncodeRune]. *)
Definition encode_rune (r : N) : string :=
  if (r <? 0x80)%N then str1 (byte_of r)
  else if (r <? 0x800)%N then
    String (byte_of (0xC0 + r / 64)) (str1 (byte_of (0x80 + r mod 64)))
  else if ((0xD800 <=? r) && (r <? 0xE000) || (0x10FFFF <? r))%N then replacement
  else if (r <? 0x10000)%N then
    String (byte_of (0xE0 + r / 4096))
      (String (byte_of (0x80 + (r / 64) mod 64)) (str1 (byte_of (0x80 + r mod 64))))
  else
    String (byte_of (0xF0 + r / 262144))
      (String (byte_of (0x80 + (r / 4096) mod 64))
         (String (byte_of (0x80 + (r / 64) mod 64)) (str1 (byte_of (0x80 + r mod 64))))).

(** [utf16.IsSurrogate] and [utf16.DecodeRune]. *)
Definition is_surrogate (r : N) : bool := ((0xD800 <=? r) && (r <? 0xE000))%N.

Definition utf16_DecodeRune (r1 r2 : N) : option N :=
  if ((0xD800 <=? r1) && (r1 <? 0xDC00) && (0xDC00 <=? r2) && (r2 <? 0xE000))%N
  then Some ((r1 - 0xD800) * 1024 + (r2 - 0xDC00) + 0x10000)%N
  else None.

(** The character a one-letter escape stands for. *)
Definition simple_escape (e : ascii) : string :=
  if is_byte 98 e then str1 (ascii_of_nat 8)
  else if is_byte 102 e then str1 (ascii_of_nat 12)
  else if is_byte 110 e then str1 LF
  else if is_byte 114 e then str1 CR
  else if is_byte 116 e then str1 TAB
  else str1 e.

(** [unquote]: the Go string a string literal denotes, given the text between
    its quotes (which the scanner has accepted).  Escapes are resolved, a
    lone surrogate escape and an ill-formed byte become U+FFFD.  [copy] bytes
    of a well-formed multi-byte rune are still to be copied. *)
Fixpoint unquote_from (copy : nat) (s : string) : string :=
  match s with
  | EmptyString => EmptyString
  | String b t =>
    match copy with
    | S k => String b (unquote_from k t)
    | O =>
      if is_byte 92 b then
        match t with
        | EmptyString => EmptyString
        | String e t1 =>
          if is_byte 117 e then
            match t1 with
            | String h1 (String h2 (String h3 (String h4 t2))) =>
              match hex4 h1 h2 h3 h4 with
              | None => EmptyString
              | Some rr =>
                if is_surrogate rr then
                  match t2 with
                  | String b' (String u' (String g1 (String g2 (String g3 (String g4 t3))))) =>
                    match (if is_byte 92 b' && is_byte 117 u' then hex4 g1 g2 g3 g4 else None) with
                    | Some rr1 =>
                      match utf16_DecodeRune rr rr1 with
                      | Some dec => encode_rune dec ++ unquote_from 0 t3
                      | None => replacement ++ unquote_from 0 t2
                      end
                    | None => replacement ++ unquote_from 0 t2
                    end
                  | _ => replacement ++ unquote_from 0 t2
                  end
                else encode_rune rr ++ unquote_from 0 t2
              end
            | _ => EmptyString
            end
          else simple_escape e ++ unquote_from 0 t1
        end
      else if (byte_val b <? 0x80)%nat then String b (unquote_from 0 t)
      else
        match utf8_width s with
        | O => replacement ++ unquote_from 0 t
        | S w => String b (unquote_from w t)
        end
    end
  end.

Definition unquote (raw : string) : string := unquote_from 0 raw.

(** The scanner's stack ([parseState]) with the values read so far: an array
    with its elements, an object with its members and, between a key and the
    end of its value, that key.  Elements and members are kept last first. *)
Inductive frame : Type :=
| FArray (elems : list json)
| FObject (members : list (string * json)) (key : option string).

(** Where the scanner is inside a number ([stateNeg], [state0], [state1],
    [stateDot], [stateDot0], [stateE], [stateESign], [stateE0]). *)
Inductive numstate : Type := NNeg | N0 | N1 | NDot | NDot0 | NE | NESign | NE0.

(** The scanner's [step] function, as data.  Text read so far is kept last
    byte first. *)
Inductive lexstate : Type :=
| BeginValue
| BeginValueOrEmpty
| BeginStringOrEmpty
| BeginString
| InString (raw : list ascii)
| InStringEsc (raw : list ascii)
| InStringEscU (more : nat) (raw : list ascii)
| InNumber (st : numstate) (lit : list ascii)
| InLiteral (rest : string) (v : json)
| EndValue
| EndTop (v : json).

Record scanner : Type := mkScanner { lx : lexstate; stack : list frame }.

Definition scanner_reset : scanner := mkScanner BeginValue [].

(** What one byte does: the scan goes on, the top-level value has ended, or
    the byte is a syntax error. *)
Inductive outcome : Type :=
| Continue (sc : scanner)
| Ended (v : json)
| SyntaxErr.

Definition text_of (rev_bytes : list ascii) : string :=
  string_of_list_ascii (List.rev rev_bytes).

Definition isSpace (c : ascii) : bool :=
  is_byte 32 c || is_byte 9 c || is_byte 13 c || is_byte 10 c.

Definition isDigit (c : ascii) : bool := in_range 48 57 c.

(** A finished value goes into the frame that encloses it. *)
Definition push_value (v : json) (st : list frame) : option (list frame) :=
  match st with
  | FArray es :: r => Some (FArray (v :: es) :: r)
  | FObject ms (Some k) :: r => Some (FObject ((k, v) :: ms) None :: r)
  | _ => None
  end.

(** An array or object has been closed; [rest] is the stack below it.  At the
    top level the decoder takes the value at once. *)
Definition close_container (v : json) (rest : list frame) : outcome :=
  match rest with
  | [] => Ended v
  | _ =>
    match push_value v rest with
    | Some st => Continue (mkScanner EndValue st)
    | None => SyntaxErr
    end
  end.

(** A string or literal has read its last byte.  At the top level its end is
    seen only at the next byte (or the end of the input). *)
Definition scalar_done (v : json) (st : list frame) : outcome :=
  match st with
  | [] => Continue (mkScanner (EndTop v) [])
  | _ =>
    match push_value v st with
    | Some st' => Continue (mkScanner EndValue st')
    | None => SyntaxErr
    end
  end.

(** [stateEndValue] below the top level. *)
Definition step_EndValue (st : list frame) (c : ascii) : outcome :=
  if isSpace c then Continue (mkScanner EndValue st)
  else
    match st with
    | FObject ms (Some k) :: r =>
      if is_byte 58 c then Continue (mkScanner BeginValue st) else SyntaxErr
    | FObject ms None :: r =>
      if is_byte 44 c then Continue (mkScanner BeginString st)
      else if is_byte 125 c then close_container (JObject (List.rev ms)) r
      else SyntaxErr
    | FArray es :: r =>
      if is_byte 44 c then Continue (mkScanner BeginValue st)
      else if is_byte 93 c then close_container (JArray (List.rev es)) r
      else SyntaxErr
    | [] => SyntaxErr
    end.

(** [stateBeginString]. *)
Definition step_BeginString (st : list frame) (c : ascii) : outcome :=
  if isSpace c then Continue (mkScanner BeginString st)
  else if is_byte 34 c then Continue (mkScanner (InString []) st)
  else SyntaxErr.

(** [stateBeginValue]. *)
Definition step_BeginValue (st : list frame) (c : ascii) : outcome :=
  if isSpace c then Continue (mkScanner BeginValue st)
  else if is_byte 123 c then Continue (mkScanner BeginStringOrEmpty (FObject [] None :: st))
  else if is_byte 91 c then Continue (mkScanner BeginValueOrEmpty (FArray [] :: st))
  else if is_byte 34 c then Continue (mkScanner (InString []) st)
  else if is_byte 45 c then Continue (mkScanner (InNumber NNeg [c]) st)
  else if is_byte 48 c then Continue (mkScanner (InNumber N0 [c]) st)
  else if is_byte 116 c then Continue (mkScanner (InLiteral "rue" (JBool true)) st)
  else if is_byte 102 c then Continue (mkScanner (InLiteral "alse" (JBool false)) st)
  else if is_byte 110 c then Continue (mkScanner (InLiteral "ull" JNull) st)
  else if in_range 49 57 c then Continue (mkScanner (InNumber N1 [c]) st)
  else SyntaxErr.

(** A number ends at the byte [c] that cannot continue it. *)
Definition number_done (lit : list ascii) (st : list frame) (c : ascii) : outcome :=
  let v := JNumber (text_of lit) in
  match st with
  | [] => Ended v
  | _ =>
    match push_value v st with
    | Some st' => step_EndValue st' c
    | None => SyntaxErr
    end
  end.

Definition step_number (ns : numstate) (lit : list ascii) (st : list frame)
  (c : ascii) : outcome :=
  let go ns' := Continue (mkScanner (InNumber ns' (c :: lit)) st) in
  let after0 :=
    if is_byte 46 c then go NDot
    else if is_byte 101 c || is_byte 69 c then go NE
    else number_done lit st c in
  let esign := if isDigit c then go NE0 else SyntaxErr in
  match ns with
  | NNeg => if is_byte 48 c then go N0 else if in_range 49 57 c then go N1 else SyntaxErr
  | N1 => if isDigit c then go N1 else after0
  | N0 => after0
  | NDot => if isDigit c then go NDot0 else SyntaxErr
  | NDot0 =>
    if isDigit c then go NDot0
    else if is_byte 101 c || is_byte 69 c then go NE
    else number_done lit st c
  | NE => if is_byte 43 c || is_byte 45 c then go NESign else esign
  | NESign => esign
  | NE0 => if isDigit c then go NE0 else number_done lit st c
  end.

(** The closing quote of a string: an object key where one is due, a value
    otherwise. *)
Definition string_done (raw : list ascii) (st : list frame) : outcome :=
  let s := unquote (text_of raw) in
  match st with
  | FObject ms None :: r => Continue (mkScanner EndValue (FObject ms (Some s) :: r))
  | _ => scalar_done (JString s) st
  end.

(** [scanner.step]: one byte. *)
Definition step (sc : scanner) (c : ascii) : outcome :=
  let st := stack sc in
  match lx sc with
  | BeginValue => step_BeginValue st c
  | BeginValueOrEmpty =>
    if isSpace c then Continue sc
    else if is_byte 93 c then step_EndValue st c
    else step_BeginValue st c
  | BeginStringOrEmpty =>
    if isSpace c then Continue sc
    else if is_byte 125 c then step_EndValue st c
    else step_BeginString st c
  | BeginString => step_BeginString st c
  | InString raw =>
    if is_byte 34 c then string_done raw st
    else if is_byte 92 c then Continue (mkScanner (InStringEsc (c :: raw)) st)
    else if (byte_val c <? 0x20)%nat then SyntaxErr
    else Continue (mkScanner (InString (c :: raw)) st)
  | InStringEsc raw =>
    if is_byte 98 c || is_byte 102 c || is_byte 110 c || is_byte 114 c
       || is_byte 116 c || is_byte 92 c || is_byte 47 c || is_byte 34 c
    then Continue (mkScanner (InString (c :: raw)) st)
    else if is_byte 117 c then Continue (mkScanner (InStringEscU 4 (c :: raw)) st)
    else SyntaxErr
  | InStringEscU more raw =>
    match hex_val c with
    | None => SyntaxErr
    | Some _ =>
      match more with
      | S (S k) => Continue (mkScanner (InStringEscU (S k) (c :: raw)) st)
      | _ => Continue (mkScanner (InString (c :: raw)) st)
      end
    end
  | InNumber ns lit => step_number ns lit st c
  | InLiteral rest v =>
    match rest with
    | String x rest' =>
      if Ascii.eqb c x then
        match rest' with
        | EmptyString => scalar_done v st
        | _ => Continue (mkScanner (InLiteral rest' v) st)
        end
      else SyntaxErr
    | EmptyString => SyntaxErr
    end
  | EndValue => step_EndValue st c
  | EndTop v => Ended v
  end.

(** The scanner over the bytes of one read. *)
Fixpoint scan_bytes (sc : scanner) (s : string) : outcome :=
  match s with
  | EmptyString => Continue sc
  | String c t =>
    match step sc c with
    | Continue sc' => scan_bytes sc' t
    | o => o
    end
  end.

(** ** encoding/json: storing a value into a Go type

    A value that does not fit the Go type of its destination is an
    [UnmarshalTypeError]: the decoder leaves the destination as it was, goes
    on with the rest of the input and reports the error at the end.  Each
    storing function returns the new destination and whether all fitted. *)

Definition is_letter (c : ascii) : bool := in_range 65 90 c || in_range 97 122 c.

Definition to_upper (c : ascii) : nat :=
  if in_range 97 122 c then byte_val c - 32 else byte_val c.

(** The decoder's case-insensitive comparison of a field name (ASCII letters)
    with an object key: letters match in either case, and the key may write
    U+017F (the long s) for an [s] and U+212A (the Kelvin sign) for a [k]. *)
Fixpoint equalFold (name key : string) : bool :=
  match name with
  | EmptyString => match key with EmptyString => true | _ => false end
  | String sb name' =>
    match key with
    | EmptyString => false
    | String tb key' =>
      if (byte_val tb <? 0x80)%nat then
        (Ascii.eqb sb tb || (is_letter sb && (to_upper sb =? to_upper tb)%nat))
        && equalFold name' key'
      else if (to_upper sb =? 83)%nat then
        match key' with
        | String t1 key'' => is_byte 0xC5 tb && is_byte 0xBF t1 && equalFold name' key''
        | EmptyString => false
        end
      else if (to_upper sb =? 75)%nat then
        match key' with
        | String t1 (String t2 key'') =>
          is_byte 0xE2 tb && is_byte 0x84 t1 && is_byte 0xAA t2 && equalFold name' key''
        | _ => false
        end
      else false
    end
  end.

(** An object key selects the field whose name it equals, else the field it
    equals up to case.  No two fields of one struct below differ by case
    only, so a key selects at most one field. *)
Definition field_match (name key : string) : bool :=
  String.eqb name key || equalFold name key.

(** [strconv.ParseInt(lit, 10, 64)] on a number literal the scanner accepted,
    with the overflow check: a literal with a fraction or an exponent, or out
    of range, is no [int]. *)
Definition parse_int (lit : string) : option Z :=
  match NilZero.int_of_string lit with
  | Some d => if is_intb (Z.of_int d) then Some (Z.of_int d) else None
  | None => None
  end.

Definition dec_string (v : json) (old : string) : string * bool :=
  match v with
  | JString s => (s, true)
  | JNull => (old, true)
  | _ => (old, false)
  end.

Definition dec_int (v : json) (old : Z) : Z * bool :=
  match v with
  | JNumber lit =>
    match parse_int lit with
    | Some z => (z, true)
    | None => (old, false)
    end
  | JNull => (old, true)
  | _ => (old, false)
  end.

(** The decimal digits [s] starts with: their value after [acc], their number
    after [n], and the rest of [s]. *)
Fixpoint read_digits (s : string) (acc n : Z) : Z * Z * string :=
  match s with
  | String c t =>
    if in_range 48 57 c
    then read_digits t (10 * acc + Z.of_nat (byte_val c - 48))%Z (n + 1)%Z
    else (acc, n, s)
  | EmptyString => (acc, n, s)
  end.

(** The largest [float64] is [2^1024 - 2^971]; a number of at least
    [2^1024 - 2^970], half a unit in the last place above it, rounds to
    infinity. *)
Definition float64_limit : Z := (2 ^ 1024 - 2 ^ 970)%Z.

(** [strconv.ParseFloat(lit, 64)] returns [ErrRange] for a number literal the
    scanner accepted.  In magnitude the literal is [m * 10^k], with [m] the
    digits of its integer and fraction parts and [k] its exponent less the
    number of fraction digits. *)
Definition float64_overflows (lit : string) : bool :=
  let s := match lit with String "-"%char t => t | _ => lit end in
  let '(m1, _, s1) := read_digits s 0 0 in
  let '(m, nfrac, s2) :=
    match s1 with
    | String "."%char t => read_digits t m1 0
    | _ => (m1, 0%Z, s1)
    end in
  let e :=
    match s2 with
    | String _ (String "-"%char t) => (- fst (fst (read_digits t 0 0)))%Z
    | String _ (String "+"%char t) => fst (fst (read_digits t 0 0))
    | String _ t => fst (fst (read_digits t 0 0))
    | EmptyString => 0%Z
    end in
  let k := (e - nfrac)%Z in
  if (m =? 0)%Z then false
  else if (400 <? k)%Z then true
  else if (0 <=? k)%Z then (float64_limit <=? m * 10 ^ k)%Z
  else if (k <? - Z.of_nat (String.length lit))%Z then false
  else (float64_limit * 10 ^ (- k) <=? m)%Z.

(** [valueInterface]: a value inside an array or an object that is read into
    an empty interface.  A number too large for a [float64] is an
    [UnmarshalTypeError], kept until the decoding is over, and leaves [nil] in
    its place. *)
Fixpoint valueInterface (v : json) : json * bool :=
  match v with
  | JNumber lit => if float64_overflows lit then (JNull, false) else (v, true)
  | JArray l =>
    let (l', ok) :=
      (fix elems (l : list json) : list json * bool :=
         match l with
         | [] => ([], true)
         | x :: r =>
           let (x', ok1) := valueInterface x in
           let (r', ok2) := elems r in
           (x' :: r', ok1 && ok2)
         end) l in
    (JArray l', ok)
  | JObject ms =>
    let (ms', ok) :=
      (fix members (ms : list (string * json)) : list (string * json) * bool :=
         match ms with
         | [] => ([], true)
         | (k, x) :: r =>
           let (x', ok1) := valueInterface x in
           let (r', ok2) := members r in
           ((k, x') :: r', ok1 && ok2)
         end) ms in
    (JObject ms', ok)
  | _ => (v, true)
  end.

(** An [interface{}] takes any value ([null] as [nil]), but for a number too
    large for a [float64]: that is an [UnmarshalTypeError], and the field
    keeps what it held.  The value is kept as the JSON it was read from; the
    provider never looks into it. *)
Definition dec_any (v : json) (old : json) : json * bool :=
  match v with
  | JNumber lit => if float64_overflows lit then (old, false) else (v, true)
  | _ => valueInterface v
  end.

(** The members of an object, in the order read, stored into a struct. *)
Fixpoint dec_members {T : Type} (setf : string -> json -> T -> T * bool)
  (ms : list (string * json)) (r : T) : T * bool :=
  match ms with
  | [] => (r, true)
  | (k, v) :: ms' =>
    let (r1, ok1) := setf k v r in
    let (r2, ok2) := dec_members setf ms' r1 in
    (r2, ok1 && ok2)
  end.

Definition dec_struct {T : Type} (setf : string -> json -> T -> T * bool)
  (v : json) (r : T) : T * bool :=
  match v with
  | JObject ms => dec_members setf ms r
  | JNull => (r, true)
  | _ => (r, false)
  end.

(** The elements of an array stored into a slice: element [i] into the
    slice's element [i] where it has one, into a zero value otherwise. *)
Fixpoint dec_elems {A : Type} (dec : json -> A -> A * bool) (zero : A)
  (js : list json) (old : list A) : list A * bool :=
  match js with
  | [] => ([], true)
  | j :: js' =>
    let (a, ok1) := dec j (match old with o :: _ => o | [] => zero end) in
    let (l, ok2) := dec_elems dec zero js' (tl old) in
    (a :: l, ok1 && ok2)
  end.

Definition dec_slice {A : Type} (dec : json -> A -> A * bool) (zero : A)
  (v : json) (old : slice A) : slice A * bool :=
  match v with
  | JArray js =>
    let (l, ok) := dec_elems dec zero js (slice_elems old) in (mk_slice l, ok)
  | JNull => (nil_slice, true)
  | _ => (old, false)
  end.

(** ** The response structs *)

(** An element of [Response.Records] (an anonymous struct). *)
Record ResponseRecord : Type := mkResponseRecord {
  rec_Content : string;                   (* json:"content" *)
  rec_Type : string;                      (* json:"type" *)
  rec_ID : string;                        (* json:"id" *)
  rec_LastChangeDate : string;            (* json:"lastChangeDate" *)
  rec_Priority : string;                  (* json:"priority" *)
  rec_RecordTemplateID : string;          (* json:"recordTemplateId" *)
  rec_ZoneConfigID : string;              (* json:"zoneConfigId" *)
  rec_TTL : Z                             (* json:"ttl" *)
}.

Definition zero_ResponseRecord : ResponseRecord :=
  mkResponseRecord EmptyString EmptyString EmptyString EmptyString EmptyString
    EmptyString EmptyString 0%Z.

(** One member of a JSON object stored into a [ResponseRecord]. *)
Definition set_ResponseRecord (k : string) (v : json) (r : ResponseRecord)
  : ResponseRecord * bool :=
  if field_match "content" k then
    let (x, ok) := dec_string v (rec_Content r) in
    (mkResponseRecord x (rec_Type r) (rec_ID r) (rec_LastChangeDate r)
       (rec_Priority r) (rec_RecordTemplateID r) (rec_ZoneConfigID r) (rec_TTL r), ok)
  else if field_match "type" k then
    let (x, ok) := dec_string v (rec_Type r) in
    (mkResponseRecord (rec_Content r) x (rec_ID r) (rec_LastChangeDate r)
       (rec_Priority r) (rec_RecordTemplateID r) (rec_ZoneConfigID r) (rec_TTL r), ok)
  else if field_match "id" k then
    let (x, ok) := dec_string v (rec_ID r) in
    (mkResponseRecord (rec_Content r) (rec_Type r) x (rec_LastChangeDate r)
       (rec_Priority r) (rec_RecordTemplateID r) (rec_ZoneConfigID r) (rec_TTL r), ok)
  else if field_match "lastChangeDate" k then
    let (x, ok) := dec_string v (rec_LastChangeDate r) in
    (mkResponseRecord (rec_Content r) (rec_Type r) (rec_ID r) x (rec_Priority r)
       (rec_RecordTemplateID r) (rec_ZoneConfigID r) (rec_TTL r), ok)
  else if field_match "priority" k then
    let (x, ok) := dec_string v (rec_Priority r) in
    (mkResponseRecord (rec_Content r) (rec_Type r) (rec_ID r) (rec_LastChangeDate r)
       x (rec_RecordTemplateID r) (rec_ZoneConfigID r) (rec_TTL r), ok)
  else if field_match "recordTemplateId" k then
    let (x, ok) := dec_string v (rec_RecordTemplateID r) in
    (mkResponseRecord (rec_Content r) (rec_Type r) (rec_ID r) (rec_LastChangeDate r)
       (rec_Priority r) x (rec_ZoneConfigID r) (rec_TTL r), ok)
  else if field_match "zoneConfigId" k then
    let (x, ok) := dec_string v (rec_ZoneConfigID r) in
    (mkResponseRecord (rec_Content r) (rec_Type r) (rec_ID r) (rec_LastChangeDate r)
       (rec_Priority r) (rec_RecordTemplateID r) x (rec_TTL r), ok)
  else if field_match "ttl" k then
    let (x, ok) := dec_int v (rec_TTL r) in
    (mkResponseRecord (rec_Content r) (rec_Type r) (rec_ID r) (rec_LastChangeDate r)
       (rec_Priority r) (rec_RecordTemplateID r) (rec_ZoneConfigID r) x, ok)
  else (r, true).

Definition dec_ResponseRecord : json -> ResponseRecord -> ResponseRecord * bool :=
  dec_struct set_ResponseRecord.

(** [ZoneConfigObject.SOAValues] (an anonymous struct). *)
Record SOAValues : Type := mkSOAValues {
  soa_Expire : string;                    (* json:"expire" *)
  soa_NegativeTTL : Z;                    (* json:"negativeTtl" *)
  soa_Refresh : Z;                        (* json:"refresh" *)
  soa_Retry : Z;                          (* json:"retry" *)
  soa_Serial : string;                    (* json:"serial" *)
  soa_TTL : Z                             (* json:"ttl" *)
}.

Definition zero_SOAValues : SOAValues :=
  mkSOAValues EmptyString 0%Z 0%Z 0%Z EmptyString 0%Z.

(** One member of a JSON object stored into a [SOAValues]. *)
Definition set_SOAValues (k : string) (v : json) (r : SOAValues)
  : SOAValues * bool :=
  if field_match "expire" k then
    let (x, ok) := dec_string v (soa_Expire r) in
    (mkSOAValues x (soa_NegativeTTL r) (soa_Refresh r) (soa_Retry r) (soa_Serial r)
       (soa_TTL r), ok)
  else if field_match "negativeTtl" k then
    let (x, ok) := dec_int v (soa_NegativeTTL r) in
    (mkSOAValues (soa_Expire r) x (soa_Refresh r) (soa_Retry r) (soa_Serial r)
       (soa_TTL r), ok)
  else if field_match "refresh" k then
    let (x, ok) := dec_int v (soa_Refresh r) in
    (mkSOAValues (soa_Expire r) (soa_NegativeTTL r) x (soa_Retry r) (soa_Serial r)
       (soa_TTL r), ok)
  else if field_match "retry" k then
    let (x, ok) := dec_int v (soa_Retry r) in
    (mkSOAValues (soa_Expire r) (soa_NegativeTTL r) (soa_Refresh r) x (soa_Serial r)
       (soa_TTL r), ok)
  else if field_match "serial" k then
    let (x, ok) := dec_string v (soa_Serial r) in
    (mkSOAValues (soa_Expire r) (soa_NegativeTTL r) (soa_Refresh r) (soa_Retry r) x
       (soa_TTL r), ok)
  else if field_match "ttl" k then
    let (x, ok) := dec_int v (soa_TTL r) in
    (mkSOAValues (soa_Expire r) (soa_NegativeTTL r) (soa_Refresh r) (soa_Retry r)
       (soa_Serial r) x, ok)
  else (r, true).

Definition dec_SOAValues : json -> SOAValues -> SOAValues * bool :=
  dec_struct set_SOAValues.

(** [type ZoneConfigObject struct]. *)
Record ZoneConfigObject : Type := mkZoneConfigObject {
  zc_AccountID : string;                  (* json:"accountId" *)
  zc_EmailAddress : string;               (* json:"emailAddress" *)
  zc_ID : string;                         (* json:"id" *)
  zc_LastChangeDate : string;             (* json:"lastChangeDate" *)
  zc_MasterIP : string;                   (* json:"masterIp" *)
  zc_Name : string;                       (* json:"name" *)
  zc_NameUnicode : string;                (* json:"nameUnicode" *)
  zc_SOAValues : SOAValues;               (* json:"soaValues" *)
  zc_Status : string;                     (* json:"status" *)
  zc_TemplateValues : string;             (* json:"templateValues" *)
  zc_Type : string;                       (* json:"type" *)
  zc_ZoneTransferWhitelist : slice string (* json:"zoneTransferWhitelist" *)
}.

Definition zero_ZoneConfigObject : ZoneConfigObject :=
  mkZoneConfigObject EmptyString EmptyString EmptyString EmptyString EmptyString
    EmptyString EmptyString zero_SOAValues EmptyString EmptyString EmptyString
    nil_slice.

(** One member of a JSON object stored into a [ZoneConfigObject]. *)
Definition set_ZoneConfigObject (k : string) (v : json) (r : ZoneConfigObject)
  : ZoneConfigObject * bool :=
  if field_match "accountId" k then
    let (x, ok) := dec_string v (zc_AccountID r) in
    (mkZoneConfigObject x (zc_EmailAddress r) (zc_ID r) (zc_LastChangeDate r)
       (zc_MasterIP r) (zc_Name r) (zc_NameUnicode r) (zc_SOAValues r) (zc_Status r)
       (zc_TemplateValues r) (zc_Type r) (zc_ZoneTransferWhitelist r), ok)
  else if field_match "emailAddress" k then
    let (x, ok) := dec_string v (zc_EmailAddress r) in
    (mkZoneConfigObject (zc_AccountID r) x (zc_ID r) (zc_LastChangeDate r)
       (zc_MasterIP r) (zc_Name r) (zc_NameUnicode r) (zc_SOAValues r) (zc_Status r)
       (zc_TemplateValues r) (zc_Type r) (zc_ZoneTransferWhitelist r), ok)
  else if field_match "id" k then
    let (x, ok) := dec_string v (zc_ID r) in
    (mkZoneConfigObject (zc_AccountID r) (zc_EmailAddress r) x (zc_LastChangeDate r)
       (zc_MasterIP r) (zc_Name r) (zc_NameUnicode r) (zc_SOAValues r) (zc_Status r)
       (zc_TemplateValues r) (zc_Type r) (zc_ZoneTransferWhitelist r), ok)
  else if field_match "lastChangeDate" k then
    let (x, ok) := dec_string v (zc_LastChangeDate r) in
    (mkZoneConfigObject (zc_AccountID r) (zc_EmailAddress r) (zc_ID r) x
       (zc_MasterIP r) (zc_Name r) (zc_NameUnicode r) (zc_SOAValues r) (zc_Status r)
       (zc_TemplateValues r) (zc_Type r) (zc_ZoneTransferWhitelist r), ok)
  else if field_match "masterIp" k then
    let (x, ok) := dec_string v (zc_MasterIP r) in
    (mkZoneConfigObject (zc_AccountID r) (zc_EmailAddress r) (zc_ID r)
       (zc_LastChangeDate r) x (zc_Name r) (zc_NameUnicode r) (zc_SOAValues r)
       (zc_Status r) (zc_TemplateValues r) (zc_Type r) (zc_ZoneTransferWhitelist r), ok)
  else if field_match "name" k then
    let (x, ok) := dec_string v (zc_Name r) in
    (mkZoneConfigObject (zc_AccountID r) (zc_EmailAddress r) (zc_ID r)
       (zc_LastChangeDate r) (zc_MasterIP r) x (zc_NameUnicode r) (zc_SOAValues r)
       (zc_Status r) (zc_TemplateValues r) (zc_Type r) (zc_ZoneTransferWhitelist r), ok)
  else if field_match "nameUnicode" k then
    let (x, ok) := dec_string v (zc_NameUnicode r) in
    (mkZoneConfigObject (zc_AccountID r) (zc_EmailAddress r) (zc_ID r)
       (zc_LastChangeDate r) (zc_MasterIP r) (zc_Name r) x (zc_SOAValues r)
       (zc_Status r) (zc_TemplateValues r) (zc_Type r) (zc_ZoneTransferWhitelist r), ok)
  else if field_match "soaValues" k then
    let (x, ok) := dec_SOAValues v (zc_SOAValues r) in
    (mkZoneConfigObject (zc_AccountID r) (zc_EmailAddress r) (zc_ID r)
       (zc_LastChangeDate r) (zc_MasterIP r) (zc_Name r) (zc_NameUnicode r) x
       (zc_Status r) (zc_TemplateValues r) (zc_Type r) (zc_ZoneTransferWhitelist r), ok)
  else if field_match "status" k then
    let (x, ok) := dec_string v (zc_Status r) in
    (mkZoneConfigObject (zc_AccountID r) (zc_EmailAddress r) (zc_ID r)
       (zc_LastChangeDate r) (zc_MasterIP r) (zc_Name r) (zc_NameUnicode r)
       (zc_SOAValues r) x (zc_TemplateValues r) (zc_Type r)
       (zc_ZoneTransferWhitelist r), ok)
  else if field_match "templateValues" k then
    let (x, ok) := dec_string v (zc_TemplateValues r) in
    (mkZoneConfigObject (zc_AccountID r) (zc_EmailAddress r) (zc_ID r)
       (zc_LastChangeDate r) (zc_MasterIP r) (zc_Name r) (zc_NameUnicode r)
       (zc_SOAValues r) (zc_Status r) x (zc_Type r) (zc_ZoneTransferWhitelist r), ok)
  else if field_match "type" k then
    let (x, ok) := dec_string v (zc_Type r) in
    (mkZoneConfigObject (zc_AccountID r) (zc_EmailAddress r) (zc_ID r)
       (zc_LastChangeDate r) (zc_MasterIP r) (zc_Name r) (zc_NameUnicode r)
       (zc_SOAValues r) (zc_Status r) (zc_TemplateValues r) x
       (zc_ZoneTransferWhitelist r), ok)
  else if field_match "zoneTransferWhitelist" k then
    let (x, ok) := (dec_slice dec_string EmptyString) v (zc_ZoneTransferWhitelist r) in
    (mkZoneConfigObject (zc_AccountID r) (zc_EmailAddress r) (zc_ID r)
       (zc_LastChangeDate r) (zc_MasterIP r) (zc_Name r) (zc_NameUnicode r)
       (zc_SOAValues r) (zc_Status r) (zc_TemplateValues r) (zc_Type r) x, ok)
  else (r, true).

Definition dec_ZoneConfigObject : json -> ZoneConfigObject -> ZoneConfigObject * bool :=
  dec_struct set_ZoneConfigObject.

(** [ZoneUpdateResponse.Response] (an anonymous struct). *)
Record ResponseData : Type := mkResponseData {
  rd_Records : slice ResponseRecord;      (* json:"records" *)
  rd_ZoneConfig : ZoneConfigObject        (* json:"zoneConfig" *)
}.

Definition zero_ResponseData : ResponseData :=
  mkResponseData nil_slice zero_ZoneConfigObject.

(** One member of a JSON object stored into a [ResponseData]. *)
Definition set_ResponseData (k : string) (v : json) (r : ResponseData)
  : ResponseData * bool :=
  if field_match "records" k then
    let (x, ok) := (dec_slice dec_ResponseRecord zero_ResponseRecord) v (rd_Records r) in
    (mkResponseData x (rd_ZoneConfig r), ok)
  else if field_match "zoneConfig" k then
    let (x, ok) := dec_ZoneConfigObject v (rd_ZoneConfig r) in
    (mkResponseData (rd_Records r) x, ok)
  else (r, true).

Definition dec_ResponseData : json -> ResponseData -> ResponseData * bool :=
  dec_struct set_ResponseData.

(** [type ZoneUpdateResponse struct].  The tags of [Errors], [Metadata] and
    [Warnings] are followed by a stray accent in the source; the tag parser
    reads the key and the quoted value before it, so the names are as here. *)
Record ZoneUpdateResponse : Type := mkZoneUpdateResponse {
  Errors : json;                          (* json:"errors" *)
  Metadata : json;                        (* json:"metadata" *)
  Warnings : json;                        (* json:"warnings" *)
  Status : string;                        (* json:"status" *)
  Response : ResponseData                 (* json:"response" *)
}.

Definition zero_ZoneUpdateResponse : ZoneUpdateResponse :=
  mkZoneUpdateResponse JNull JNull JNull EmptyString zero_ResponseData.

(** One member of a JSON object stored into a [ZoneUpdateResponse]. *)
Definition set_ZoneUpdateResponse (k : string) (v : json) (r : ZoneUpdateResponse)
  : ZoneUpdateResponse * bool :=
  if field_match "errors" k then
    let (x, ok) := dec_any v (Errors r) in
    (mkZoneUpdateResponse x (Metadata r) (Warnings r) (Status r) (Response r), ok)
  else if field_match "metadata" k then
    let (x, ok) := dec_any v (Metadata r) in
    (mkZoneUpdateResponse (Errors r) x (Warnings r) (Status r) (Response r), ok)
  else if field_match "warnings" k then
    let (x, ok) := dec_any v (Warnings r) in
    (mkZoneUpdateResponse (Errors r) (Metadata r) x (Status r) (Response r), ok)
  else if field_match "status" k then
    let (x, ok) := dec_string v (Status r) in
    (mkZoneUpdateResponse (Errors r) (Metadata r) (Warnings r) x (Response r), ok)
  else if field_match "response" k then
    let (x, ok) := dec_ResponseData v (Response r) in
    (mkZoneUpdateResponse (Errors r) (Metadata r) (Warnings r) (Status r) x, ok)
  else (r, true).

Definition dec_ZoneUpdateResponse : json -> ZoneUpdateResponse -> ZoneUpdateResponse * bool :=
  dec_struct set_ZoneUpdateResponse.

(** ** io: the body of a response *)

(** A response body as the provider sees it, an [io.ReadCloser]: the bytes
    not read yet, in the pieces the connection delivers them; how reading
    ends after them (the end of the body, or some error); whether [Close]
    was called. *)
Record Body : Type := mkBody {
  unread : list string;
  failure : option string;
  closed : bool
}.

Inductive read_result : Type :=
| ReadData (p : string)
| ReadEnd (e : error).

Definition closed_body : string := "http: read on closed response body".

(** [Read(p)] with [len(p) = n]: the next piece, or its first [n] bytes when
    it is longer than [p]. *)
Definition Read (n : nat) (b : Body) : read_result * Body :=
  if closed b then (ReadEnd (ReadError closed_body), b)
  else
    match unread b with
    | [] =>
      (ReadEnd (match failure b with None => EOF | Some m => ReadError m end), b)
    | c :: cs =>
      if (String.length c <=? n)%nat then (ReadData c, mkBody cs (failure b) (closed b))
      else (ReadData (substring 0 n c),
            mkBody (substring n (String.length c - n) c :: cs) (failure b) (closed b))
    end.

(** The bytes of the body that are still to be read. *)
Definition body_text (b : Body) : string :=
  fold_right append EmptyString (unread b).

(** [ioutil.ReadAll]: everything up to the end of the body, and the error
    that ended the reading unless that was the end of the body. *)
Definition ReadAll (b : Body) : (string * option error) * Body :=
  if closed b then ((EmptyString, Some (ReadError closed_body)), b)
  else
    ((body_text b,
      match failure b with None => None | Some m => Some (ReadError m) end),
     mkBody [] (failure b) (closed b)).

Definition Close (b : Body) : Body := mkBody (unread b) (failure b) true.

(** The body has been read to its end. *)
Definition drained (b : Body) : Prop := unread b = [].

(** ** encoding/json: [Decoder] *)

Definition minRead : nat := 512.

(** Only white space has been scanned ([nonSpace(dec.buf)] is false). *)
Definition at_start (sc : scanner) : bool :=
  match lx sc, stack sc with
  | BeginValue, [] => true
  | _, _ => false
  end.

(** [Decoder.readValue]: [refill] reads into the free part of a buffer of
    [len] bytes and capacity [cap], growing it to [2 * cap + minRead] when
    fewer than [minRead] bytes are free; the scanner then runs over what was
    read.  The loop ends with the value, a syntax error or the error of the
    read; at the end of the body a value that only lacked its delimiter is
    taken.  Every round takes bytes or a piece from the body, so
    [body_fuel] rounds are enough (lemma [readValue_fuel]). *)
Fixpoint readValue_loop (fuel : nat) (sc : scanner) (len cap : nat) (b : Body)
  : (json + error) * Body :=
  match fuel with
  | O => (inr ErrUnexpectedEOF, b)
  | S fuel' =>
    let cap' := if (cap - len <? minRead)%nat then 2 * cap + minRead else cap in
    match Read (cap' - len) b with
    | (ReadData p, b') =>
      match scan_bytes sc p with
      | Ended v => (inl v, b')
      | SyntaxErr => (inr SyntaxError, b')
      | Continue sc' => readValue_loop fuel' sc' (len + String.length p) cap' b'
      end
    | (ReadEnd EOF, b') =>
      match step sc " "%char with
      | Ended v => (inl v, b')
      | _ => (inr (if at_start sc then EOF else ErrUnexpectedEOF), b')
      end
    | (ReadEnd e, b') => (inr e, b')
    end
  end.

Definition body_size (b : Body) : nat :=
  fold_right (fun c n => S (String.length c) + n) 0 (unread b).

Definition body_fuel (b : Body) : nat := S (body_size b).

Definition readValue (b : Body) : (json + error) * Body :=
  readValue_loop (body_fuel b) scanner_reset 0 0 b.

(** [json.NewDecoder(body).Decode(&r)] for [r] a [ZoneUpdateResponse]. *)
Definition Decode (b : Body) (r : ZoneUpdateResponse)
  : (ZoneUpdateResponse * option error) * Body :=
  match readValue b with
  | (inr e, b') => ((r, Some e), b')
  | (inl v, b') =>
    let (r', ok) := dec_ZoneUpdateResponse v r in
    ((r', if ok then None else Some UnmarshalTypeError), b')
  end.

(** ** net/http *)

(** [time.Duration] counts nanoseconds. *)
Definition Duration : Type := Z.
Definition Second : Duration := 1000000000%Z.

Record http_Client : Type := mkClient { client_Timeout : Duration }.

(** A request, as far as the provider sets it.  The URL is kept as the text
    it was built from: [url.Parse] accepts the one URL this package
    requests, and [URL.String] gives that text back. *)
Record Request : Type := mkRequest {
  Method : string;
  URL : string;
  req_Body : string
}.

Definition URL_String (req : Request) : string := URL req.

Record http_Response : Type := mkResponse {
  StatusCode : Z;
  resp_Body : Body
}.

Definition MethodPost : string := "POST".

(** A token character of RFC 7230 ([httpguts.IsTokenRune]). *)
Definition is_token (c : ascii) : bool :=
  is_letter c || isDigit c
  || existsb (Ascii.eqb c) (list_ascii_of_string "!#$%&'*+-.^_`|~").

Definition validMethod (method : string) : bool :=
  negb (String.eqb method EmptyString)
  && forallb is_token (list_ascii_of_string method).

(** [http.NewRequest]. *)
Definition http_NewRequest (method url body : string) : Request + error :=
  let method := if String.eqb method EmptyString then "GET" else method in
  if validMethod method then inl (mkRequest method url body) else inr InvalidMethod.

(** What the client's [Do] returns. *)
Inductive DoResult : Type :=
| DoError (msg : string)       (* err, with [msg] its [Error()] *)
| DoResponse (resp : http_Response).

(** ** The world

    What the provider does to its surroundings: the requests it hands to the
    HTTP client, oldest first; the response bodies it received, each as the
    call that received it left it; what it printed. *)
Record World : Type := mkWorld {
  sent : list Request;
  bodies : list Body;
  stdout : string
}.

Definition M (A : Type) : Type := World -> A * World.

Definition ret {A : Type} (a : A) : M A := fun w => (a, w).

Definition bind {A B : Type} (m : M A) (k : A -> M B) : M B :=
  fun w => let (a, w') := m w in k a w'.

Notation "x <- m ;; k" := (bind m (fun x => k))
  (at level 61, m at next level, right associativity).

Definition Printf (text : string) : M unit :=
  fun w => (tt, mkWorld (sent w) (bodies w) (stdout w ++ text)).

(** [fmt]'s [%#v] of a [[]byte]. *)
Definition hex_min (n : nat) : string :=
  if (n <? 16)%nat then str1 (hex n) else String (hex (n / 16)) (str1 (hex (n mod 16))).

Definition GoString_bytes (s : string) : string :=
  "[]byte{"
  ++ String.concat ", " (map (fun c => "0x" ++ hex_min (byte_val c)) (list_ascii_of_string s))
  ++ "}".

(** The rest of a function that has deferred [body.Close()]: [k] computes
    the results and the state it leaves the body in; the body is then
    closed. *)
Definition deferClose {A : Type} (k : A * Body) : M A :=
  fun w => (fst k, mkWorld (sent w) (bodies w ++ [Close (snd k)]) (stdout w)).

(** ** package acme *)

(** Modelled from the spec: [acme.UnFqdn] is not among the sources.  The spec
    has the record name "with any trailing [.] stripped" ("with trailing dot
    removed"): the name without its last byte where that is a dot, the name
    itself otherwise. *)
Fixpoint UnFqdn (name : string) : string :=
  match name with
  | EmptyString => EmptyString
  | String c rest =>
    match rest with
    | EmptyString => if is_byte 46 c then EmptyString else name
    | String _ _ => String c (UnFqdn rest)
    end
  end.

(** ** package hostingde *)

(** [const HostingdeAPIURL] *)
Definition HostingdeAPIURL : string := "https://secure.hosting.de/api/dns/v1/json".

(** [type DNSProvider struct] *)
Record DNSProvider : Type := mkDNSProvider {
  authKey : string;
  zoneName : string;
  client : http_Client
}.

(** [func NewDNSProviderCredentials(key, zoneName string)]: a provider, or an
    error. *)
Definition NewDNSProviderCredentials (key zoneName : string) : M (DNSProvider + error) :=
  if String.eqb key EmptyString || String.eqb zoneName EmptyString then
    ret (inr (errorString "Hostingde: API key or Zone Name missing"))
  else
    let client := mkClient (30 * Second)%Z in
    ret (inl {| authKey := key; zoneName := zoneName; client := client |}).

(** [func (d *DNSProvider) Timeout() (timeout, interval time.Duration)] *)
Definition Timeout (d : DNSProvider) : Duration * Duration :=
  ((120 * Second)%Z, (2 * Second)%Z).

Section Provider.

(** [acme.DNS01Record(domain, keyAuth)]: the name, the value and the TTL of
    the challenge record.  It is another package's; the provider works with
    whatever it returns. *)
Variable DNS01Record : string -> string -> string * string * Z.

(** [http.Client.Do]: the network and the provider at its other end. *)
Variable Do : http_Client -> Request -> DoResult.

Definition client_Do (c : http_Client) (req : Request) : M DoResult :=
  fun w => (Do c req, mkWorld (sent w ++ [req]) (bodies w) (stdout w)).

(** [func (d *DNSProvider) doRequest(method, uri string, body io.Reader)
    (ZoneUpdateResponse, error)] *)
Definition doRequest (d : DNSProvider) (method uri body : string)
  : M (ZoneUpdateResponse * option error) :=
  let r := zero_ZoneUpdateResponse in
  match http_NewRequest method (HostingdeAPIURL ++ uri) body with
  | inr err => ret (r, Some err)
  | inl req =>
    res <- client_Do (client d) req ;;
    match res with
    | DoError msg =>
      ret (r, Some (errorString ("error querying Hostingde API -> " ++ msg)))
    | DoResponse resp =>
      deferClose
        (let '(r, err, b1) := Decode (resp_Body resp) r in
         match err with
         | Some err => ((r, Some err), b1)
         | None =>
           if negb (String.eqb (Status r) "success") then
             let '(body, err, b2) := ReadAll b1 in
             let strBody :=
               match err with
               | None => body
               | Some _ => "Unreadable body"
               end in
             ((r, Some (errorString
                          ("Hostingde API error: the request " ++ URL_String req
                           ++ " sent the following response: " ++ strBody))), b2)
           else ((r, None), b1)
         end)
    end
  end.

(** The [ZoneUpdateRequest] that [Present] builds from the challenge record. *)
Definition Present_request (d : DNSProvider) (fqdn value : string) (ttl : Z)
  : ZoneUpdateRequest :=
  let rec := mk_slice [
    {| add_Type := "TXT";
       add_Name := UnFqdn fqdn;
       add_Content := value;
       add_TTL := ttl |} ] in
  {| AuthToken := authKey d;
     ZoneConfig := {| sel_Name := zoneName d |};
     RecordsToAdd := rec;
     RecordsToDelete := mk_slice [] |}.

(** The debug line both [Present] and [CleanUp] print. *)
Definition debug_line (body : string) : string :=
  "Cleanup: " ++ String LF (" " ++ GoString_bytes body ++ " " ++ str1 LF).

(** [func (d *DNSProvider) Present(domain, token, keyAuth string) error] *)
Definition Present (d : DNSProvider) (domain token keyAuth : string) : M (option error) :=
  let '(fqdn, value, ttl) := DNS01Record domain keyAuth in
  let req := Present_request d fqdn value ttl in
  match json_Marshal req with
  | (_, Some err) => ret (Some err)
  | (body, None) =>
    _ <- Printf (debug_line body) ;;
    res <- doRequest d MethodPost "/zoneUpdate" body ;;
    ret (snd res)
  end.

(** The [ZoneUpdateRequest] that [CleanUp] builds from the challenge record. *)
Definition CleanUp_request (d : DNSProvider) (fqdn value : string)
  : ZoneUpdateRequest :=
  let rec := mk_slice [
    {| del_Type := "TXT";
       del_Name := UnFqdn fqdn;
       del_Content := value |} ] in
  {| AuthToken := authKey d;
     ZoneConfig := {| sel_Name := zoneName d |};
     RecordsToAdd := mk_slice [];
     RecordsToDelete := rec |}.

(** [func (d *DNSProvider) CleanUp(domain, token, keyAuth string) error] *)
Definition CleanUp (d : DNSProvider) (domain token keyAuth : string) : M (option error) :=
  let '(fqdn, value, _) := DNS01Record domain keyAuth in
  let req := CleanUp_request d fqdn value in
  match json_Marshal req with
  | (_, Some err) => ret (Some err)
  | (body, None) =>
    _ <- Printf (debug_line body) ;;
    res <- doRequest d MethodPost "/zoneUpdate" body ;;
    ret (snd res)
  end.

End Provider.

(** ** [NewDNSProvider] and the environment *)

(** A Go [map[string]string]; a key it does not hold gives the empty
    string. *)
Definition go_map : Type := list (string * string).

Fixpoint map_get (m : go_map) (k : string) : string :=
  match m with
  | [] => EmptyString
  | (k', v) :: m' => if String.eqb k' k then v else map_get m' k
  end.

Section Environment.

(** [env.Get(names...)] of the platform/config/env package: a map with the
    values of the named environment variables, or an error (given by its
    message).  It is another package's; [NewDNSProvider] works with whatever
    it returns. *)
Variable env_Get : list string -> go_map * option string.

(** [func NewDNSProvider()]: a provider, or an error. *)
Definition NewDNSProvider : M (DNSProvider + error) :=
  let '(values, err) := env_Get ["HOSTINGDE_API_KEY"; "HOSTINGDE_ZONE_NAME"] in
  match err with
  | Some msg => ret (inr (errorString ("Hostingde: " ++ msg)))
  | None =>
    NewDNSProviderCredentials (map_get values "HOSTINGDE_API_KEY")
      (map_get values "HOSTINGDE_ZONE_NAME")
  end.

End Environment.

(** ** Sample inputs *)

Definition quoted (s : string) : string := String dquote (s ++ str1 dquote).

(** An object key as the encoder writes it. *)
Definition jkey (name : string) : string := quoted name ++ ":".

(** A response the provider sends after a successful update: the status and
    the record echoed back. *)
Definition sample_success_body : string :=
  "{" ++ jkey "status" ++ quoted "success" ++ ","
  ++ jkey "response" ++ "{" ++ jkey "records" ++ "[{"
  ++ jkey "name" ++ quoted "_acme-challenge.example.com" ++ ","
  ++ jkey "type" ++ quoted "TXT" ++ ","
  ++ jkey "content" ++ quoted "LoqXcYV8q5ONbJQxbmR7SCTNo3tiAXDfowyjxAjKuX0" ++ ","
  ++ jkey "ttl" ++ "120}]}}".

(** A response with another status. *)
Definition sample_error_body : string :=
  "{" ++ jkey "status" ++ quoted "error" ++ "}".

(** A challenge record as [acme.DNS01Record] gives it: the name under
    [_acme-challenge] with its trailing dot, a 43-character value, 120 s. *)
Definition sample_DNS01Record (domain keyAuth : string) : string * string * Z :=
  ("_acme-challenge." ++ domain ++ ".", "LoqXcYV8q5ONbJQxbmR7SCTNo3tiAXDfowyjxAjKuX0", 120%Z).

(** A transport that answers every request with status 200 and a body that
    arrives in the given pieces. *)
Definition answer (pieces : list string) : http_Client -> Request -> DoResult :=
  fun _ _ => DoResponse (mkResponse 200 (mkBody pieces None false)).

(** The same, with a body whose reading fails after the pieces. *)
Definition answer_broken (pieces : list string) (msg : string)
  : http_Client -> Request -> DoResult :=
  fun _ _ => DoResponse (mkResponse 200 (mkBody pieces (Some msg) false)).

Definition sample_provider : DNSProvider :=
  mkDNSProvider "secret" "example.com" (mkClient (30 * Second)%Z).

Definition empty_world : World := mkWorld [] [] EmptyString.

Definition zoneUpdateURL : string :=
  "https://secure.hosting.de/api/dns/v1/json/zoneUpdate".

(** ** Statements *)

(** The transport answers every request with a response whose body decodes
    into a [ZoneUpdateResponse] with the status [success]. *)
Definition answers_success (Do : http_Client -> Request -> DoResult) : Prop :=
  forall c req, exists resp r b',
    Do c req = DoResponse resp
    /\ Decode (resp_Body resp) zero_ZoneUpdateResponse = ((r, None), b')
    /\ Status r = "success".


(** The ways out of [doRequest] once it holds a response. *)
Inductive exit : Type :=
| ExitDecodeFailure
| ExitNonSuccess
| ExitSuccess.

(** The way out taken for what [Decode] returned. *)
Definition exit_path (r : ZoneUpdateResponse) (err : option error) : exit :=
  match err with
  | Some _ => ExitDecodeFailure
  | None => if String.eqb (Status r) "success" then ExitSuccess else ExitNonSuccess
  end.

(** [n] spaces. *)
Fixpoint spaces (n : nat) : string :=
  match n with
  | O => EmptyString
  | S n' => String " "%char (spaces n')
  end.

(** What the decoder makes of the end of the body: the read error if reading
    failed, else a value that only lacked its delimiter, else [io.EOF] after
    white space only and [io.ErrUnexpectedEOF] after anything else. *)
Definition at_end (sc : scanner) (fail : option string) : json + error :=
  match fail with
  | Some m => inr (ReadError m)
  | None =>
    match step sc " "%char with
    | Ended v => inl v
    | _ => inr (if at_start sc then EOF else ErrUnexpectedEOF)
    end
  end.

(** The scanner over a whole text and its end. *)
Definition scan_text (sc : scanner) (text : string) (fail : option string)
  : json + error :=
  match scan_bytes sc text with
  | Ended v => inl v
  | SyntaxErr => inr SyntaxError
  | Continue sc' => at_end sc' fail
  end.

(** An error was returned. *)
Definition failed (err : option error) : bool :=
  match err with
  | Some _ => true
  | None => false
  end.

(** Every byte is white space. *)
Definition all_space (s : string) : bool :=
  forallb isSpace (list_ascii_of_string s).

(** Every byte is ASCII. *)
Definition ascii_only (s : string) : bool :=
  forallb (fun c => (byte_val c <? 0x80)%nat) (list_ascii_of_string s).

(** The error of the non-success way out, for the one URL requested, with
    the response text [text]. *)
Definition api_error (text : string) : error :=
  errorString ("Hostingde API error: the request " ++ zoneUpdateURL
               ++ " sent the following response: " ++ text).

(** A transport that answers every request with the given status code and
    body. *)
Definition respond (code : Z) (b : Body) : http_Client -> Request -> DoResult :=
  fun _ _ => DoResponse (mkResponse code b).

(** A state the scanner can be in: it waits for the byte after a top-level
    value only at the top level. *)
Definition scanner_wf (sc : scanner) : Prop :=
  match lx sc with
  | EndTop _ => stack sc = []
  | _ => True
  end.

(** One element of the dump of a byte slice. *)
Definition dump_byte (c : ascii) : string := "0x" ++ hex_min (byte_val c).

(** The value of a hexadecimal digit, as a [nat]. *)
Definition hex_digit (c : ascii) : option nat :=
  match hex_val c with Some n => Some (N.to_nat n) | None => None end.

(** Reads one element of a byte dump back: its value and the text after it. *)
Definition read_dump_byte (s : string) : option (nat * string) :=
  match s with
  | String z (String x (String h1 t)) =>
    if is_byte 48 z && is_byte 120 x then
      match hex_digit h1 with
      | None => None
      | Some n1 =>
        match t with
        | String h2 t' =>
          match hex_digit h2 with
          | Some n2 => Some (16 * n1 + n2, t')
          | None => Some (n1, t)
          end
        | EmptyString => Some (n1, t)
        end
      end
    else None
  | _ => None
  end.

(** The text after an element of a dump: the end, or a comma and more. *)
Definition dump_tail (t : string) : Prop :=
  exists t', t = String ","%char t' \/ t = String "}"%char t'.

(** The elements of a dump and the closing brace. *)
Definition dump_elems (cs : list ascii) : string :=
  String.concat ", " (map (fun c => "0x" ++ hex_min (byte_val c)) cs) ++ "}".

(** ** Reading a request body back *)

(** What a string becomes when the encoder writes it as a literal and
    [unquote] reads the literal back: bytes that are not valid UTF-8 come back
    as U+FFFD, every other string unchanged. *)
Definition read_back (s : string) : string := unquote (escape_from 0 0 s).

(** The scanner collects the bytes of a literal in reverse. *)
Definition rev_chars (s : string) : list ascii := List.rev (list_ascii_of_string s).

(** The scanner inside a string literal, [raw] read so far. *)
Definition in_string (raw : list ascii) (st : list frame) : scanner := mkScanner (InString raw) st.

(** Scanning [chunk] inside a literal leaves the scanner inside it. *)
Definition stays (chunk : string) : Prop :=
  forall raw st, scan_bytes (in_string raw st) chunk = Continue (in_string (rev_chars chunk ++ raw) st).

(** The scanner inside a number literal. *)
Definition in_number (ns : numstate) (lit : list ascii) (st : list frame) : scanner :=
  mkScanner (InNumber ns lit) st.

(** [read_back] on every string of the request structs. *)
Definition read_back_add (a : RecordsAddRequest) : RecordsAddRequest :=
  mkRecordsAddRequest (read_back (add_Name a)) (read_back (add_Type a))
    (read_back (add_Content a)) (add_TTL a).

Definition read_back_delete (x : RecordsDeleteRequest) : RecordsDeleteRequest :=
  mkRecordsDeleteRequest (read_back (del_Name x)) (read_back (del_Type x))
    (read_back (del_Content x)).

Definition slice_map {A B : Type} (f : A -> B) (s : slice A) : slice B :=
  match s with
  | nil_slice => nil_slice
  | mk_slice l => mk_slice (map f l)
  end.

Definition read_back_request (r : ZoneUpdateRequest) : ZoneUpdateRequest :=
  mkZoneUpdateRequest (read_back (AuthToken r))
    (mkZoneConfigSelector (read_back (sel_Name (ZoneConfig r))))
    (slice_map read_back_add (RecordsToAdd r))
    (slice_map read_back_delete (RecordsToDelete r)).

(** ** Whole values and echoes *)

(** Scanning [text] from [sc] reads the value [v], which ends with the last
    byte of [text]: the bytes before it leave the value unfinished. *)
Definition ends_on_last_byte (sc : scanner) (text : string) (v : json) : Prop :=
  exists init last sc',
    text = init ++ str1 last
    /\ scan_bytes sc init = Continue sc'
    /\ step sc' last = Ended v.

(** [text] is one JSON value and nothing else: the scanner reads [v] from it,
    and from no shorter start of [text] does it read a value or find an
    error. *)
Definition whole_value (text : string) (v : json) : Prop :=
  scan_bytes scanner_reset text = Ended v
  /\ forall a b, text = a ++ b -> b <> "" ->
       exists sc, scan_bytes scanner_reset a = Continue sc.


(** * Properties *)

(** ** Strings *)

Lemma string_app_assoc (a b c : string) : (a ++ b) ++ c = a ++ (b ++ c).
Proof.
  induction a as [| x a IH]; cbn; [reflexivity | now rewrite IH].
Qed.

Lemma is_byte_eq (n : nat) (c : ascii) :
  is_byte n c = true -> c = ascii_of_nat n.
Proof.
  unfold is_byte, byte_val. intros H.
  apply Nat.eqb_eq in H. rewrite <- H. symmetry. apply ascii_nat_embedding.
Qed.

(** ** [UnFqdn] *)

Lemma UnFqdn_dot (s : string) : UnFqdn (s ++ ".") = s.
Proof.
  induction s as [| c s IH]; [reflexivity |].
  cbn [append UnFqdn]. rewrite IH.
  destruct s; reflexivity.
Qed.

Lemma UnFqdn_no_dot (name : string) :
  (forall s, name <> s ++ ".") -> UnFqdn name = name.
Proof.
  induction name as [| c rest IH]; intros Hno; [reflexivity |].
  cbn [UnFqdn]. destruct rest as [| c' rest'].
  - destruct (is_byte 46 c) eqn:Hc; [| reflexivity].
    apply is_byte_eq in Hc. subst c.
    exfalso. apply (Hno EmptyString). reflexivity.
  - rewrite IH; [reflexivity |].
    intros s Hs. apply (Hno (String c s)). cbn [append]. now rewrite Hs.
Qed.

(** ** The request of an exchange *)

Lemma NewRequest_POST (url body : string) :
  http_NewRequest MethodPost url body = inl (mkRequest MethodPost url body).
Proof. reflexivity. Qed.

Lemma doRequest_sent Do d uri body w :
  sent (snd (doRequest Do d MethodPost uri body w))
  = (sent w ++ [mkRequest MethodPost (HostingdeAPIURL ++ uri) body])%list.
Proof.
  unfold doRequest. rewrite NewRequest_POST.
  unfold bind, client_Do.
  destruct (Do (client d) _) as [msg | resp]; reflexivity.
Qed.

Lemma Present_sent DNS01Record Do d domain token keyAuth w :
  sent (snd (Present DNS01Record Do d domain token keyAuth w))
  = (sent w ++ [mkRequest MethodPost (HostingdeAPIURL ++ "/zoneUpdate")
      (fst (json_Marshal
         (Present_request d (fst (fst (DNS01Record domain keyAuth)))
            (snd (fst (DNS01Record domain keyAuth)))
            (snd (DNS01Record domain keyAuth)))))])%list.
Proof.
  unfold Present. destruct (DNS01Record domain keyAuth) as [[fqdn value] ttl].
  cbn [fst snd json_Marshal]. unfold bind, Printf.
  match goal with
  | |- context [doRequest Do d MethodPost ?u ?b ?w1] =>
    pose proof (doRequest_sent Do d u b w1) as Hs;
    destruct (doRequest Do d MethodPost u b w1) as [res w2]
  end.
  cbn [snd sent ret] in *. exact Hs.
Qed.

Lemma CleanUp_sent DNS01Record Do d domain token keyAuth w :
  sent (snd (CleanUp DNS01Record Do d domain token keyAuth w))
  = (sent w ++ [mkRequest MethodPost (HostingdeAPIURL ++ "/zoneUpdate")
      (fst (json_Marshal
         (CleanUp_request d (fst (fst (DNS01Record domain keyAuth)))
            (snd (fst (DNS01Record domain keyAuth))))))])%list.
Proof.
  unfold CleanUp. destruct (DNS01Record domain keyAuth) as [[fqdn value] ttl].
  cbn [fst snd json_Marshal]. unfold bind, Printf.
  match goal with
  | |- context [doRequest Do d MethodPost ?u ?b ?w1] =>
    pose proof (doRequest_sent Do d u b w1) as Hs;
    destruct (doRequest Do d MethodPost u b w1) as [res w2]
  end.
  cbn [snd sent ret] in *. exact Hs.
Qed.

(** ** The envelopes *)

(** C1.  Whatever name, value and TTL [acme.DNS01Record] gives for the
    challenge, [Present] hands the HTTP client one request whose body is the
    JSON text of an envelope with the provider's token and zone name, with
    exactly one record to add (of type TXT, with that value and TTL, and with
    the name less its trailing dot: [s] for a name [s ++ "."], the name itself
    when it ends in no dot), and with an empty list of records to delete. *)
Theorem Present_builds_add_envelope :
  forall DNS01Record Do d domain token keyAuth w,
    let '(fqdn, value, ttl) := DNS01Record domain keyAuth in
    let req := Present_request d fqdn value ttl in
    sent (snd (Present DNS01Record Do d domain token keyAuth w))
    = (sent w ++ [mkRequest MethodPost (HostingdeAPIURL ++ "/zoneUpdate")
                    (fst (json_Marshal req))])%list
    /\ AuthToken req = authKey d
    /\ sel_Name (ZoneConfig req) = zoneName d
    /\ (exists e,
           RecordsToAdd req = mk_slice [e]
           /\ add_Type e = "TXT" /\ add_Content e = value /\ add_TTL e = ttl
           /\ add_Name e = UnFqdn fqdn
           /\ (forall s, fqdn = s ++ "." -> add_Name e = s)
           /\ ((forall s, fqdn <> s ++ ".") -> add_Name e = fqdn))
    /\ RecordsToDelete req = mk_slice [].
Proof.
  intros DNS01Record Do d domain token keyAuth w.
  pose proof (Present_sent DNS01Record Do d domain token keyAuth w) as Hsent.
  destruct (DNS01Record domain keyAuth) as [[fqdn value] ttl] eqn:Hrec.
  cbn [fst snd] in Hsent. cbv zeta.
  split; [exact Hsent |].
  repeat split.
  eexists. repeat split.
  - intros s ->. apply UnFqdn_dot.
  - apply UnFqdn_no_dot.
Qed.

(** C2.  Whatever name and value [acme.DNS01Record] gives for the challenge,
    [CleanUp] hands the HTTP client one request whose body is the JSON text
    of an envelope with the provider's token and zone name, with exactly one
    record to delete (of type TXT, with that value, with the name less its
    trailing dot, and with the three fields [name], [type] and [content]
    only: no TTL), and with an empty list of records to add. *)
Theorem CleanUp_builds_delete_envelope :
  forall DNS01Record Do d domain token keyAuth w,
    let '(fqdn, value, _) := DNS01Record domain keyAuth in
    let req := CleanUp_request d fqdn value in
    sent (snd (CleanUp DNS01Record Do d domain token keyAuth w))
    = (sent w ++ [mkRequest MethodPost (HostingdeAPIURL ++ "/zoneUpdate")
                    (fst (json_Marshal req))])%list
    /\ AuthToken req = authKey d
    /\ sel_Name (ZoneConfig req) = zoneName d
    /\ (exists e,
           RecordsToDelete req = mk_slice [e]
           /\ del_Type e = "TXT" /\ del_Content e = value
           /\ del_Name e = UnFqdn fqdn
           /\ (forall s, fqdn = s ++ "." -> del_Name e = s)
           /\ ((forall s, fqdn <> s ++ ".") -> del_Name e = fqdn)
           /\ marshal_RecordsDeleteRequest e
              = JObject [("name", JString (del_Name e)); ("type", JString "TXT");
                         ("content", JString value)])
    /\ RecordsToAdd req = mk_slice [].
Proof.
  intros DNS01Record Do d domain token keyAuth w.
  pose proof (CleanUp_sent DNS01Record Do d domain token keyAuth w) as Hsent.
  destruct (DNS01Record domain keyAuth) as [[fqdn value] ttl] eqn:Hrec.
  cbn [fst snd] in Hsent. cbv zeta.
  split; [exact Hsent |].
  repeat split.
  eexists. repeat split.
  - intros s ->. apply UnFqdn_dot.
  - apply UnFqdn_no_dot.
Qed.

(** C7.  The one request [Present] issues, and the one [CleanUp] issues, has
    the method POST and the URL made of [HostingdeAPIURL] and [/zoneUpdate],
    which is https://secure.hosting.de/api/dns/v1/json/zoneUpdate. *)
Theorem requests_POST_zoneUpdate :
  forall DNS01Record Do d domain token keyAuth w,
    (exists body,
        sent (snd (Present DNS01Record Do d domain token keyAuth w))
        = (sent w ++ [mkRequest "POST" zoneUpdateURL body])%list)
    /\ (exists body,
           sent (snd (CleanUp DNS01Record Do d domain token keyAuth w))
           = (sent w ++ [mkRequest "POST" zoneUpdateURL body])%list)
    /\ zoneUpdateURL = HostingdeAPIURL ++ "/zoneUpdate"
    /\ HostingdeAPIURL = "https://secure.hosting.de/api/dns/v1/json".
Proof.
  intros DNS01Record Do d domain token keyAuth w.
  split; [| split; [| split; reflexivity]].
  - eexists. rewrite Present_sent. reflexivity.
  - eexists. rewrite CleanUp_sent. reflexivity.
Qed.

(** ** The serialized envelope *)

Ltac fold_keys :=
  repeat match goal with
         | |- context [encode_string (String ?c ?s)] =>
           change (encode_string (String c s)) with (quoted (String c s))
         end.

Lemma Present_body (d : DNSProvider) (fqdn value : string) (ttl : Z) :
  fst (json_Marshal (Present_request d fqdn value ttl))
  = "{" ++ jkey "authToken" ++ encode_string (authKey d) ++ ","
    ++ jkey "zoneConfig" ++ "{" ++ jkey "name" ++ encode_string (zoneName d) ++ "},"
    ++ jkey "recordsToAdd"
    ++ "[{" ++ jkey "name" ++ encode_string (UnFqdn fqdn) ++ ","
            ++ jkey "type" ++ quoted "TXT" ++ ","
            ++ jkey "content" ++ encode_string value ++ ","
            ++ jkey "ttl" ++ itoa ttl ++ "}],"
    ++ jkey "recordsToDelete" ++ "[]}".
Proof.
  unfold json_Marshal, Present_request, marshal_ZoneUpdateRequest.
  cbn [fst render marshal_slice map marshal_RecordsAddRequest
       marshal_ZoneConfigSelector AuthToken ZoneConfig RecordsToAdd
       RecordsToDelete sel_Name add_Name add_Type add_Content add_TTL].
  fold_keys. unfold jkey.
  repeat rewrite string_app_assoc. reflexivity.
Qed.

Lemma CleanUp_body (d : DNSProvider) (fqdn value : string) :
  fst (json_Marshal (CleanUp_request d fqdn value))
  = "{" ++ jkey "authToken" ++ encode_string (authKey d) ++ ","
    ++ jkey "zoneConfig" ++ "{" ++ jkey "name" ++ encode_string (zoneName d) ++ "},"
    ++ jkey "recordsToAdd" ++ "[],"
    ++ jkey "recordsToDelete"
    ++ "[{" ++ jkey "name" ++ encode_string (UnFqdn fqdn) ++ ","
            ++ jkey "type" ++ quoted "TXT" ++ ","
            ++ jkey "content" ++ encode_string value ++ "}]}".
Proof.
  unfold json_Marshal, CleanUp_request, marshal_ZoneUpdateRequest.
  cbn [fst render marshal_slice map marshal_RecordsDeleteRequest
       marshal_ZoneConfigSelector AuthToken ZoneConfig RecordsToAdd
       RecordsToDelete sel_Name del_Name del_Type del_Content].
  fold_keys. unfold jkey.
  repeat rewrite string_app_assoc. reflexivity.
Qed.

(** A [nil] slice would be written as [null]: the empty lists of the two
    envelopes are empty slices, not [nil]. *)
Lemma nil_slice_is_null {A : Type} (f : A -> json) :
  render (marshal_slice f nil_slice) = "null"
  /\ render (marshal_slice f (mk_slice [])) = "[]".
Proof. split; reflexivity. Qed.

(** C9.  The body of the request [Present] sends is a JSON object with the
    members [authToken], [zoneConfig], [recordsToAdd] and [recordsToDelete],
    in which [recordsToDelete] is the empty array; the body [CleanUp] sends
    has the same four members, with [recordsToAdd] the empty array.  Neither
    list is left out or written as [null]. *)
Theorem envelope_has_both_sequences :
  forall DNS01Record Do d domain token keyAuth w,
    let '(fqdn, value, ttl) := DNS01Record domain keyAuth in
    (exists req,
        sent (snd (Present DNS01Record Do d domain token keyAuth w))
        = (sent w ++ [req])%list
        /\ req_Body req
           = "{" ++ jkey "authToken" ++ encode_string (authKey d) ++ ","
             ++ jkey "zoneConfig" ++ "{" ++ jkey "name"
                                  ++ encode_string (zoneName d) ++ "},"
             ++ jkey "recordsToAdd"
             ++ "[{" ++ jkey "name" ++ encode_string (UnFqdn fqdn) ++ ","
                     ++ jkey "type" ++ quoted "TXT" ++ ","
                     ++ jkey "content" ++ encode_string value ++ ","
                     ++ jkey "ttl" ++ itoa ttl ++ "}],"
             ++ jkey "recordsToDelete" ++ "[]}")
    /\ (exists req,
           sent (snd (CleanUp DNS01Record Do d domain token keyAuth w))
           = (sent w ++ [req])%list
           /\ req_Body req
              = "{" ++ jkey "authToken" ++ encode_string (authKey d) ++ ","
                ++ jkey "zoneConfig" ++ "{" ++ jkey "name"
                                     ++ encode_string (zoneName d) ++ "},"
                ++ jkey "recordsToAdd" ++ "[],"
                ++ jkey "recordsToDelete"
                ++ "[{" ++ jkey "name" ++ encode_string (UnFqdn fqdn) ++ ","
                        ++ jkey "type" ++ quoted "TXT" ++ ","
                        ++ jkey "content" ++ encode_string value ++ "}]}").
Proof.
  intros DNS01Record Do d domain token keyAuth w.
  pose proof (Present_sent DNS01Record Do d domain token keyAuth w) as HP.
  pose proof (CleanUp_sent DNS01Record Do d domain token keyAuth w) as HC.
  destruct (DNS01Record domain keyAuth) as [[fqdn value] ttl].
  cbn [fst snd] in HP, HC.
  split.
  - eexists. split; [exact HP |].
    cbn [req_Body]. apply Present_body.
  - eexists. split; [exact HC |].
    cbn [req_Body]. apply CleanUp_body.
Qed.

(** C10.  The body of the request depends on the provider's token and zone
    name and on the arguments of the call only: two providers with the same
    token and zone name, called with the same arguments, send the same bytes,
    whatever their HTTP clients, the worlds they run in and the answers they
    get. *)
Theorem request_body_deterministic :
  forall DNS01Record Do1 Do2 d1 d2 domain token keyAuth w1 w2,
    authKey d1 = authKey d2 ->
    zoneName d1 = zoneName d2 ->
    (exists body,
        map req_Body (sent (snd (Present DNS01Record Do1 d1 domain token keyAuth w1)))
        = (map req_Body (sent w1) ++ [body])%list
        /\ map req_Body (sent (snd (Present DNS01Record Do2 d2 domain token keyAuth w2)))
           = (map req_Body (sent w2) ++ [body])%list)
    /\ (exists body,
           map req_Body (sent (snd (CleanUp DNS01Record Do1 d1 domain token keyAuth w1)))
           = (map req_Body (sent w1) ++ [body])%list
           /\ map req_Body (sent (snd (CleanUp DNS01Record Do2 d2 domain token keyAuth w2)))
              = (map req_Body (sent w2) ++ [body])%list).
Proof.
  intros DNS01Record Do1 Do2 d1 d2 domain token keyAuth w1 w2 Hkey Hzone.
  split.
  - eexists. rewrite !Present_sent, !map_app. cbn [map req_Body].
    split; [reflexivity |].
    unfold Present_request. now rewrite Hkey, Hzone.
  - eexists. rewrite !CleanUp_sent, !map_app. cbn [map req_Body].
    split; [reflexivity |].
    unfold CleanUp_request. now rewrite Hkey, Hzone.
Qed.

(** Two providers that differ in their HTTP client only, in different worlds
    and with different answers from the network. *)
Lemma request_body_deterministic_witness :
  (exists body,
      map req_Body (sent (snd (Present sample_DNS01Record (answer [sample_success_body])
                                 sample_provider "example.com" "token" "keyAuth" empty_world)))
      = [body]
      /\ map req_Body (sent (snd (Present sample_DNS01Record (answer [sample_error_body])
                                    (mkDNSProvider "secret" "example.com" (mkClient 1%Z))
                                    "example.com" "token" "keyAuth"
                                    (mkWorld [] [] "earlier output"))))
         = [body])
  /\ (exists body,
         map req_Body (sent (snd (CleanUp sample_DNS01Record (answer [sample_success_body])
                                    sample_provider "example.com" "token" "keyAuth" empty_world)))
         = [body]
         /\ map req_Body (sent (snd (CleanUp sample_DNS01Record (answer [sample_error_body])
                                       (mkDNSProvider "secret" "example.com" (mkClient 1%Z))
                                       "example.com" "token" "keyAuth"
                                       (mkWorld [] [] "earlier output"))))
            = [body]).
Proof.
  exact (request_body_deterministic sample_DNS01Record
           (answer [sample_success_body]) (answer [sample_error_body])
           sample_provider (mkDNSProvider "secret" "example.com" (mkClient 1%Z))
           "example.com" "token" "keyAuth" empty_world (mkWorld [] [] "earlier output")
           eq_refl eq_refl).
Defined.

(** ** Construction *)

(** C5.  With an empty key or an empty zone name [NewDNSProviderCredentials]
    returns the error "Hostingde: API key or Zone Name missing"; otherwise it
    returns a provider that holds the key and the zone name it was given.
    Either way it leaves the world as it found it: no request is sent. *)
Theorem NewDNSProviderCredentials_checks :
  forall (key zone : string) (w : World),
    ((key = "" \/ zone = "") ->
     NewDNSProviderCredentials key zone w
     = (inr (errorString "Hostingde: API key or Zone Name missing"), w))
    /\ (key <> "" -> zone <> "" ->
        exists d,
          NewDNSProviderCredentials key zone w = (inl d, w)
          /\ authKey d = key /\ zoneName d = zone)
    /\ sent (snd (NewDNSProviderCredentials key zone w)) = sent w.
Proof.
  intros key zone w. unfold NewDNSProviderCredentials.
  destruct (String.eqb_spec key "") as [Hk | Hk];
    destruct (String.eqb_spec zone "") as [Hz | Hz]; cbn [orb ret].
  all: split; [| split; [| reflexivity]].
  all: try (intros _; reflexivity).
  all: try (intros Hk' Hz'; congruence).
  - intros [H | H]; congruence.
  - intros _ _. eexists. split; [reflexivity | split; reflexivity].
Qed.

(** ** The exchange *)

(** [doRequest] with a valid method, step by step: the request goes to the
    client; an answer is decoded, and what follows depends on the exit
    path. *)
Lemma doRequest_unfold Do d method uri body w req :
  http_NewRequest method (HostingdeAPIURL ++ uri) body = inl req ->
  doRequest Do d method uri body w
  = let w1 := mkWorld (sent w ++ [req]) (bodies w) (stdout w) in
    match Do (client d) req with
    | DoError msg =>
      ((zero_ZoneUpdateResponse,
        Some (errorString ("error querying Hostingde API -> " ++ msg))), w1)
    | DoResponse resp =>
      let dec := Decode (resp_Body resp) zero_ZoneUpdateResponse in
      let r := fst (fst dec) in
      match snd (fst dec) with
      | Some err =>
        ((r, Some err), mkWorld (sent w1) (bodies w1 ++ [Close (snd dec)]) (stdout w1))
      | None =>
        if String.eqb (Status r) "success" then
          ((r, None), mkWorld (sent w1) (bodies w1 ++ [Close (snd dec)]) (stdout w1))
        else
          let rd := ReadAll (snd dec) in
          ((r, Some (errorString
                       ("Hostingde API error: the request " ++ URL_String req
                        ++ " sent the following response: "
                        ++ match snd (fst rd) with
                           | None => fst (fst rd)
                           | Some _ => "Unreadable body"
                           end))),
           mkWorld (sent w1) (bodies w1 ++ [Close (snd rd)]) (stdout w1))
      end
    end.
Proof.
  intros Hreq. unfold doRequest. rewrite Hreq.
  unfold bind, client_Do, ret, deferClose. cbv zeta.
  destruct (Do (client d) req) as [msg | resp]; [reflexivity |].
  destruct (Decode (resp_Body resp) zero_ZoneUpdateResponse) as [[r err] b1].
  cbn [fst snd]. destruct err as [err |]; [reflexivity |].
  destruct (String.eqb (Status r) "success"); cbn [negb]; [reflexivity |].
  destruct (ReadAll b1) as [[data rerr] b2]. reflexivity.
Qed.

Lemma Present_result DNS01Record Do d domain token keyAuth w :
  exists body w1,
    fst (Present DNS01Record Do d domain token keyAuth w)
    = snd (fst (doRequest Do d MethodPost "/zoneUpdate" body w1))
    /\ sent w1 = sent w /\ bodies w1 = bodies w.
Proof.
  unfold Present. destruct (DNS01Record domain keyAuth) as [[fqdn value] ttl].
  cbn [json_Marshal]. unfold bind, Printf, ret.
  match goal with
  | |- context [doRequest Do d MethodPost _ ?b ?w1] => exists b, w1
  end.
  split; [| split; reflexivity].
  destruct (doRequest Do d MethodPost _ _ _) as [res w2]. reflexivity.
Qed.

Lemma CleanUp_result DNS01Record Do d domain token keyAuth w :
  exists body w1,
    fst (CleanUp DNS01Record Do d domain token keyAuth w)
    = snd (fst (doRequest Do d MethodPost "/zoneUpdate" body w1))
    /\ sent w1 = sent w /\ bodies w1 = bodies w.
Proof.
  unfold CleanUp. destruct (DNS01Record domain keyAuth) as [[fqdn value] ttl].
  cbn [json_Marshal]. unfold bind, Printf, ret.
  match goal with
  | |- context [doRequest Do d MethodPost _ ?b ?w1] => exists b, w1
  end.
  split; [| split; reflexivity].
  destruct (doRequest Do d MethodPost _ _ _) as [res w2]. reflexivity.
Qed.

Lemma doRequest_success Do d uri body w :
  answers_success Do ->
  snd (fst (doRequest Do d MethodPost uri body w)) = None.
Proof.
  intros Hok.
  rewrite (doRequest_unfold Do d MethodPost uri body w _ (NewRequest_POST _ _)).
  cbv zeta.
  destruct (Hok (client d) (mkRequest MethodPost (HostingdeAPIURL ++ uri) body))
    as (resp & r & b' & HDo & HDec & HSt).
  rewrite HDo, HDec. cbn [fst snd]. rewrite HSt. reflexivity.
Qed.

(** C4.  When the transport answers with a body that decodes into a
    [ZoneUpdateResponse] whose status is [success], [Present] and [CleanUp]
    return no error. *)
Theorem success_status_no_error :
  forall DNS01Record Do d domain token keyAuth w,
    answers_success Do ->
    fst (Present DNS01Record Do d domain token keyAuth w) = None
    /\ fst (CleanUp DNS01Record Do d domain token keyAuth w) = None.
Proof.
  intros DNS01Record Do d domain token keyAuth w Hok. split.
  - destruct (Present_result DNS01Record Do d domain token keyAuth w)
      as (body & w1 & -> & _).
    now apply doRequest_success.
  - destruct (CleanUp_result DNS01Record Do d domain token keyAuth w)
      as (body & w1 & -> & _).
    now apply doRequest_success.
Qed.

(** The sample response, delivered in one piece, decodes with the status
    [success]. *)
Lemma sample_answers_success : answers_success (answer [sample_success_body]).
Proof.
  intros c req. unfold answer.
  eexists. eexists. eexists.
  split; [reflexivity |].
  split; vm_compute; reflexivity.
Defined.

Lemma success_status_no_error_witness :
  fst (Present sample_DNS01Record (answer [sample_success_body]) sample_provider
         "example.com" "token" "keyAuth" empty_world) = None
  /\ fst (CleanUp sample_DNS01Record (answer [sample_success_body]) sample_provider
            "example.com" "token" "keyAuth" empty_world) = None.
Proof.
  exact (success_status_no_error sample_DNS01Record (answer [sample_success_body])
           sample_provider "example.com" "token" "keyAuth" empty_world
           sample_answers_success).
Defined.

(** ** The response body *)

Lemma Read_closed (n : nat) (b : Body) :
  closed (snd (Read n b)) = closed b
  /\ (closed b = true -> fst (Read n b) = ReadEnd (ReadError closed_body)).
Proof.
  unfold Read. destruct (closed b) eqn:Hc; [split; [exact Hc | reflexivity] |].
  destruct (unread b) as [| c cs]; [cbn; split; [exact Hc | discriminate] |].
  destruct (String.length c <=? n)%nat; cbn; (split; [reflexivity | discriminate]).
Qed.

(** A value comes only out of a body that is open, and leaves it open. *)
Lemma readValue_loop_open fuel sc len cap b v b' :
  readValue_loop fuel sc len cap b = (inl v, b') -> closed b' = false.
Proof.
  revert sc len cap b.
  induction fuel as [| fuel IH]; intros sc len cap b H; [discriminate |].
  cbn [readValue_loop] in H.
  set (n := ((if (cap - len <? minRead)%nat then 2 * cap + minRead else cap) - len)%nat) in H.
  destruct (Read_closed n b) as [Hsame Hclosed].
  destruct (Read n b) as [res b1]. cbn [fst snd] in *.
  destruct (closed b) eqn:Hc.
  - rewrite (Hclosed eq_refl) in H. discriminate.
  - destruct res as [p | e].
    + destruct (scan_bytes sc p) as [sc' | v' |].
      * now apply IH in H.
      * inversion H; subst. exact Hsame.
      * discriminate.
    + destruct e; try discriminate.
      destruct (step sc " "%char); try discriminate.
      inversion H; subst. exact Hsame.
Qed.

Lemma Decode_open b r r' b' :
  Decode b r = ((r', None), b') -> closed b' = false.
Proof.
  unfold Decode, readValue. intros H.
  destruct (readValue_loop _ _ _ _ b) as [[v | e] b1] eqn:Hrv; [| discriminate].
  destruct (dec_ZoneUpdateResponse v r) as [r1 ok].
  inversion H; subst. now apply readValue_loop_open in Hrv.
Qed.

Lemma ReadAll_drains (b : Body) :
  closed b = false -> drained (snd (ReadAll b)).
Proof.
  unfold ReadAll, drained. intros ->. reflexivity.
Qed.

(** C8, as the code has it.  Once [doRequest] holds a response, on each of
    its three ways out (decode failure, non-success status, success) the
    response body is closed when it returns.  The body is read to its end on
    the non-success way only, where [ioutil.ReadAll] reads it for the error
    message; on the other two it is left as the JSON decoder left it. *)
Theorem body_closed_on_every_path :
  forall Do d method uri body w req resp,
    http_NewRequest method (HostingdeAPIURL ++ uri) body = inl req ->
    Do (client d) req = DoResponse resp ->
    let dec := Decode (resp_Body resp) zero_ZoneUpdateResponse in
    exists b,
      bodies (snd (doRequest Do d method uri body w)) = (bodies w ++ [b])%list
      /\ closed b = true
      /\ match exit_path (fst (fst dec)) (snd (fst dec)) with
         | ExitNonSuccess => drained b
         | ExitDecodeFailure | ExitSuccess => b = Close (snd dec)
         end.
Proof.
  intros Do d method uri body w req resp Hreq HDo dec.
  rewrite (doRequest_unfold Do d method uri body w req Hreq). cbv zeta.
  rewrite HDo. fold dec.
  destruct dec as [[r err] b1] eqn:Hdec. cbn [fst snd].
  destruct err as [err |]; cbn [exit_path].
  - eexists. cbn [snd bodies]. repeat split.
  - destruct (String.eqb (Status r) "success").
    + eexists. cbn [snd bodies]. repeat split.
    + eexists. cbn [snd bodies]. split; [reflexivity |]. split; [reflexivity |].
      unfold drained, Close. cbn [unread].
      apply ReadAll_drains. exact (Decode_open _ _ _ _ Hdec).
Qed.

(** The three ways out on sample answers: a body that is not JSON, a body
    with another status, and a success. *)
Lemma body_closed_on_every_path_witness :
  exists b,
    bodies (snd (doRequest (answer [sample_error_body; "more"]) sample_provider
                   MethodPost "/zoneUpdate" "{}" empty_world)) = [b]
    /\ closed b = true
    /\ drained b.
Proof.
  exact (body_closed_on_every_path (answer [sample_error_body; "more"])
           sample_provider MethodPost "/zoneUpdate" "{}" empty_world
           (mkRequest MethodPost zoneUpdateURL "{}")
           (mkResponse 200 (mkBody [sample_error_body; "more"] None false))
           eq_refl eq_refl).
Defined.

(** C8 as claimed fails on the success way out: the provider answers with
    the sample success response followed by white space, all in one piece of
    more than 512 bytes.  [doRequest] returns no error and closes the body,
    and the bytes after the decoder's first read are still unread.  The same
    holds when the rest of the body arrives as a second piece, and on the
    decode-failure way out. *)
Lemma success_leaves_body_unread :
  let long_answer := answer [sample_success_body ++ spaces 600] in
  let out := doRequest long_answer sample_provider MethodPost "/zoneUpdate" "{}"
               empty_world in
  snd (fst out) = None
  /\ (exists b, bodies (snd out) = [b] /\ closed b = true
                /\ unread b = [spaces (String.length sample_success_body + 600 - minRead)]
                /\ ~ drained b)
  /\ (let out2 := doRequest (answer [sample_success_body; "more"]) sample_provider
                    MethodPost "/zoneUpdate" "{}" empty_world in
      snd (fst out2) = None
      /\ bodies (snd out2) = [mkBody ["more"] None true])
  /\ (let out3 := doRequest (answer ["<html>"; "more"]) sample_provider
                    MethodPost "/zoneUpdate" "{}" empty_world in
      snd (fst out3) = Some SyntaxError
      /\ bodies (snd out3) = [mkBody ["more"] None true]).
Proof.
  cbv zeta. split; [vm_compute; reflexivity |].
  split.
  - eexists. split; [vm_compute; reflexivity |].
    split; [reflexivity |]. split; [vm_compute; reflexivity |].
    unfold drained. cbn. discriminate.
  - split; split; vm_compute; reflexivity.
Qed.

(** C3, at a concrete answer.  The provider answers [Present] with status
    200 and the body [{"status":"error"}].  [doRequest] fails with an error
    that names the URL, and the response text in it is empty: the JSON
    decoder has read the body, and [ioutil.ReadAll] gets what is left of it.
    When the body arrives in two pieces and the value ends in the first, the
    text is the second piece; when reading on fails, it is the
    placeholder. *)
Lemma error_status_message_lacks_body :
  sample_error_body = "{" ++ quoted "status" ++ ":" ++ quoted "error" ++ "}"
  /\ fst (Present sample_DNS01Record (answer [sample_error_body]) sample_provider
            "example.com" "token" "keyAuth" empty_world)
     = Some (errorString
               ("Hostingde API error: the request " ++ zoneUpdateURL
                ++ " sent the following response: "))
  /\ fst (CleanUp sample_DNS01Record (answer [sample_error_body; "more"]) sample_provider
            "example.com" "token" "keyAuth" empty_world)
     = Some (errorString
               ("Hostingde API error: the request " ++ zoneUpdateURL
                ++ " sent the following response: more"))
  /\ fst (Present sample_DNS01Record (answer_broken [sample_error_body] "reset")
            sample_provider "example.com" "token" "keyAuth" empty_world)
     = Some (errorString
               ("Hostingde API error: the request " ++ zoneUpdateURL
                ++ " sent the following response: Unreadable body")).
Proof.
  split; [reflexivity |].
  split; [| split]; vm_compute; reflexivity.
Qed.

(** ** The echo of a record *)










(** ** What the decoder takes from the body *)

Lemma string_length_app (a b : string) :
  String.length (a ++ b) = String.length a + String.length b.
Proof.
  induction a as [| x a IH]; cbn; [reflexivity | now rewrite IH].
Qed.

Lemma substring_length (s : string) (n m : nat) :
  n + m <= String.length s -> String.length (substring n m s) = m.
Proof.
  revert n m. induction s as [| c s IH]; intros n m H; cbn in H.
  - assert (n = 0) by lia. assert (m = 0) by lia. subst. reflexivity.
  - destruct n as [| n]; destruct m as [| m]; cbn; try reflexivity.
    + f_equal. apply IH. lia.
    + apply IH. lia.
    + apply IH. lia.
Qed.

Lemma substring_split (s : string) (n : nat) :
  n <= String.length s ->
  substring 0 n s ++ substring n (String.length s - n) s = s.
Proof.
  revert n. induction s as [| c s IH]; intros n H; cbn in H.
  - assert (n = 0) by lia. subst. reflexivity.
  - destruct n as [| n].
    + cbn. f_equal.
      clear. induction s as [| c s IH]; [reflexivity | cbn; now rewrite IH].
    + cbn. f_equal. apply IH. lia.
Qed.

(** A read that gives bytes takes them from the head of the body. *)
Lemma Read_data (n : nat) (b : Body) (p : string) (b' : Body) :
  Read n b = (ReadData p, b') ->
  body_text b = p ++ body_text b'
  /\ String.length p <= n
  /\ (1 <= n -> body_size b' < body_size b).
Proof.
  unfold Read, body_text, body_size.
  destruct (closed b); [discriminate |].
  destruct (unread b) as [| c cs]; [discriminate |].
  destruct (Nat.leb_spec (String.length c) n) as [Hle | Hlt]; intros H;
    inversion H; subst; clear H; cbn [unread fold_right].
  - split; [reflexivity |]. split; lia.
  - split; [| split].
    + rewrite <- string_app_assoc, substring_split by lia. reflexivity.
    + rewrite substring_length by lia. lia.
    + intros Hn. rewrite substring_length by lia. lia.
Qed.

Lemma Read_end (n : nat) (b : Body) (e : error) (b' : Body) :
  Read n b = (ReadEnd e, b') -> b' = b.
Proof.
  unfold Read. destruct (closed b); [now inversion 1 |].
  destruct (unread b) as [| c cs]; [now inversion 1 |].
  destruct (String.length c <=? n)%nat; discriminate.
Qed.

(** The free part of the decoder's buffer after [refill] has grown it. *)
Lemma refill_space (len cap : nat) :
  len <= cap ->
  let cap' := if (cap - len <? minRead)%nat then 2 * cap + minRead else cap in
  1 <= cap' - len /\ forall k, k <= cap' - len -> len + k <= cap'.
Proof.
  intros Hle. unfold minRead. cbv zeta.
  destruct (Nat.ltb_spec (cap - len) 512); split; intros; lia.
Qed.

(** More fuel than [body_fuel] changes nothing: the loop of [readValue]
    ends before its fuel does. *)
Lemma readValue_fuel (n m : nat) (sc : scanner) (len cap : nat) (b : Body) :
  len <= cap -> body_size b < n -> body_size b < m ->
  readValue_loop n sc len cap b = readValue_loop m sc len cap b.
Proof.
  revert m sc len cap b.
  induction n as [| n IH]; intros m sc len cap b Hle Hn Hm; [lia |].
  destruct m as [| m]; [lia |].
  cbn [readValue_loop].
  destruct (refill_space len cap Hle) as [Hspace Hfit].
  set (cap' := if (cap - len <? minRead)%nat then 2 * cap + minRead else cap) in *.
  destruct (Read (cap' - len) b) as [[p | e] b1] eqn:HR; [| reflexivity].
  destruct (Read_data _ _ _ _ HR) as (_ & Hp & Hsize).
  specialize (Hsize Hspace).
  destruct (scan_bytes sc p) as [sc' | v |]; try reflexivity.
  apply IH; [apply Hfit; exact Hp | lia | lia].
Qed.

(** The scanner takes no value from no bytes. *)
Lemma scan_bytes_empty (sc : scanner) : scan_bytes sc EmptyString = Continue sc.
Proof. reflexivity. Qed.

(** A decoded value has taken a prefix of the body; a decoder that starts
    afresh has taken at least one byte. *)
Lemma readValue_loop_takes fuel sc len cap b res b' :
  readValue_loop fuel sc len cap b = (res, b') ->
  exists taken,
    body_text b = taken ++ body_text b'
    /\ (sc = scanner_reset -> (exists v, res = inl v) -> taken <> EmptyString).
Proof.
  revert sc len cap b.
  induction fuel as [| fuel IH]; intros sc len cap b H.
  - inversion H; subst. exists EmptyString. split; [reflexivity |].
    intros _ [v Hv]. discriminate.
  - cbn [readValue_loop] in H.
    set (n := ((if (cap - len <? minRead)%nat then 2 * cap + minRead else cap) - len)%nat) in H.
    destruct (Read n b) as [[p | e] b1] eqn:HR.
    + destruct (Read_data _ _ _ _ HR) as (Htext & _ & _).
      destruct (scan_bytes sc p) as [sc' | v |] eqn:Hscan.
      * destruct (IH _ _ _ _ H) as (taken & Ht & Hne).
        exists (p ++ taken). split.
        -- rewrite Htext, Ht. now rewrite string_app_assoc.
        -- intros Hsc Hres. destruct p as [| c p].
           ++ subst sc. cbn in Hscan. inversion Hscan; subst sc'.
              cbn [append]. now apply Hne.
           ++ discriminate.
      * inversion H; subst. exists p. split; [exact Htext |].
        intros Hsc _. destruct p as [| c p]; [| discriminate].
        subst sc. discriminate.
      * inversion H; subst. exists p. split; [exact Htext |].
        intros _ [v Hv]. discriminate.
    + apply Read_end in HR. subst b1.
      exists EmptyString.
      destruct e; inversion H; subst; try (split; [reflexivity |]; intros _ [v Hv]; discriminate).
      destruct (step sc " "%char) as [sc' | v |] eqn:Hstep;
        inversion H; subst; (split; [reflexivity |]).
      * intros _ [v Hv]. discriminate.
      * intros Hsc _. subst sc. discriminate.
      * intros _ [v Hv]. discriminate.
Qed.

Lemma Decode_takes (b : Body) (r r' : ZoneUpdateResponse) (b' : Body) :
  Decode b r = ((r', None), b') ->
  exists taken, taken <> EmptyString /\ body_text b = taken ++ body_text b'.
Proof.
  unfold Decode, readValue. intros H.
  destruct (readValue_loop _ _ _ _ b) as [[v | e] b1] eqn:Hrv; [| discriminate].
  destruct (dec_ZoneUpdateResponse v r) as [r1 ok].
  inversion H; subst.
  destruct (readValue_loop_takes _ _ _ _ _ _ _ Hrv) as (taken & Ht & Hne).
  exists taken. split; [| exact Ht].
  apply Hne; [reflexivity | now exists v].
Qed.

(** ** Further properties of the exchange *)

(** X1.  On the non-success way out the error names the URL of the request and
    carries what [ioutil.ReadAll] still finds in the body, or the
    placeholder when reading on fails.  The decoder has taken a non-empty
    prefix of the body before, so the text is never the whole body. *)
Theorem non_success_error_message :
  forall Do d method uri body w req resp r b1,
    http_NewRequest method (HostingdeAPIURL ++ uri) body = inl req ->
    Do (client d) req = DoResponse resp ->
    Decode (resp_Body resp) zero_ZoneUpdateResponse = ((r, None), b1) ->
    Status r <> "success" ->
    snd (fst (doRequest Do d method uri body w))
    = Some (errorString
              ("Hostingde API error: the request " ++ URL req
               ++ " sent the following response: "
               ++ match failure b1 with
                  | None => body_text b1
                  | Some _ => "Unreadable body"
                  end))
    /\ exists taken,
         taken <> EmptyString
         /\ body_text (resp_Body resp) = taken ++ body_text b1.
Proof.
  intros Do d method uri body w req resp r b1 Hreq HDo HDec HSt.
  split; [| exact (Decode_takes _ _ _ _ HDec)].
  rewrite (doRequest_unfold Do d method uri body w req Hreq). cbv zeta.
  rewrite HDo, HDec. cbn [fst snd].
  apply String.eqb_neq in HSt. rewrite HSt.
  unfold ReadAll. rewrite (Decode_open _ _ _ _ HDec). cbn [fst snd].
  unfold URL_String. destruct (failure b1); reflexivity.
Qed.

Lemma non_success_error_message_witness :
  snd (fst (doRequest (answer [sample_error_body; "more"]) sample_provider
              MethodPost "/zoneUpdate" "{}" empty_world))
  = Some (errorString
            ("Hostingde API error: the request " ++ zoneUpdateURL
             ++ " sent the following response: " ++ "more"))
  /\ exists taken,
       taken <> EmptyString
       /\ sample_error_body ++ "more" = taken ++ "more".
Proof.
  refine (non_success_error_message (answer [sample_error_body; "more"])
            sample_provider MethodPost "/zoneUpdate" "{}" empty_world
            (mkRequest MethodPost zoneUpdateURL "{}")
            (mkResponse 200 (mkBody [sample_error_body; "more"] None false))
            (mkZoneUpdateResponse JNull JNull JNull "error" zero_ResponseData)
            (mkBody ["more"] None false)
            eq_refl eq_refl _ _).
  - vm_compute. reflexivity.
  - cbn [Status]. discriminate.
Defined.

(** X2.  When the client returns an error, [doRequest] wraps its message; one
    request went out and no body was received. *)
Theorem transport_failure_error :
  forall Do d method uri body w req msg,
    http_NewRequest method (HostingdeAPIURL ++ uri) body = inl req ->
    Do (client d) req = DoError msg ->
    doRequest Do d method uri body w
    = ((zero_ZoneUpdateResponse,
        Some (errorString ("error querying Hostingde API -> " ++ msg))),
       mkWorld (sent w ++ [req]) (bodies w) (stdout w)).
Proof.
  intros Do d method uri body w req msg Hreq HDo.
  rewrite (doRequest_unfold Do d method uri body w req Hreq). cbv zeta.
  now rewrite HDo.
Qed.

Lemma transport_failure_error_witness :
  doRequest (fun _ _ => DoError "context deadline exceeded") sample_provider
    MethodPost "/zoneUpdate" "{}" empty_world
  = ((zero_ZoneUpdateResponse,
      Some (errorString "error querying Hostingde API -> context deadline exceeded")),
     mkWorld [mkRequest MethodPost zoneUpdateURL "{}"] [] EmptyString).
Proof.
  exact (transport_failure_error (fun _ _ => DoError "context deadline exceeded")
           sample_provider MethodPost "/zoneUpdate" "{}" empty_world
           (mkRequest MethodPost zoneUpdateURL "{}") "context deadline exceeded"
           eq_refl eq_refl).
Defined.

(** X3.  [doRequest] never looks at the HTTP status code: two answers with the
    same body and different codes have the same outcome. *)
Theorem status_code_ignored :
  forall (code1 code2 : Z) (b : Body) d method uri body w,
    doRequest (fun _ _ => DoResponse (mkResponse code1 b)) d method uri body w
    = doRequest (fun _ _ => DoResponse (mkResponse code2 b)) d method uri body w.
Proof.
  intros code1 code2 b d method uri body w.
  unfold doRequest.
  destruct (http_NewRequest method (HostingdeAPIURL ++ uri) body) as [req | err];
    [| reflexivity].
  unfold bind, client_Do. cbn [resp_Body]. reflexivity.
Qed.

(** [Timeout] returns 120 s and 2 s, in nanoseconds. *)
Theorem Timeout_values :
  forall d, Timeout d = (120000000000%Z, 2000000000%Z).
Proof.
  intros d. unfold Timeout, Second. f_equal.
Qed.

(** A body that is well-formed JSON with the status [success] is still a
    decode failure when a member does not fit the Go type of its field: here
    a record's [priority], a string in the struct, is a number. *)
Lemma ill_typed_success_body_fails :
  let body := "{" ++ jkey "status" ++ quoted "success" ++ ","
              ++ jkey "response" ++ "{" ++ jkey "records" ++ "[{"
              ++ jkey "priority" ++ "0}]}}" in
  fst (Present sample_DNS01Record (answer [body]) sample_provider
         "example.com" "token" "keyAuth" empty_world)
  = Some UnmarshalTypeError.
Proof.
  cbv zeta. vm_compute. reflexivity.
Qed.

(** ** The decoder reads a text, however it is delivered *)

Lemma scan_bytes_app (sc : scanner) (a b : string) :
  scan_bytes sc (a ++ b)
  = match scan_bytes sc a with
    | Continue sc' => scan_bytes sc' b
    | o => o
    end.
Proof.
  revert sc. induction a as [| c a IH]; intros sc; cbn [append scan_bytes].
  - reflexivity.
  - destruct (step sc c); try reflexivity. apply IH.
Qed.

Lemma Read_failure (n : nat) (b : Body) :
  failure (snd (Read n b)) = failure b.
Proof.
  unfold Read. destruct (closed b); [reflexivity |].
  destruct (unread b) as [| c cs]; [reflexivity |].
  destruct (String.length c <=? n)%nat; reflexivity.
Qed.

Lemma Read_end_text (n : nat) (b : Body) (e : error) (b' : Body) :
  closed b = false ->
  Read n b = (ReadEnd e, b') ->
  body_text b = EmptyString
  /\ e = match failure b with None => EOF | Some m => ReadError m end.
Proof.
  unfold Read, body_text. intros ->.
  destruct (unread b) as [| c cs].
  - intros H. inversion H. split; reflexivity.
  - destruct (String.length c <=? n)%nat; discriminate.
Qed.

(** The value or the error of [readValue] is that of the scanner run over
    the text of the body: the pieces the body arrives in play no part. *)
Lemma readValue_loop_text fuel sc len cap b :
  closed b = false -> len <= cap -> body_size b < fuel ->
  fst (readValue_loop fuel sc len cap b) = scan_text sc (body_text b) (failure b).
Proof.
  revert sc len cap b.
  induction fuel as [| fuel IH]; intros sc len cap b Hopen Hle Hfuel; [lia |].
  cbn [readValue_loop].
  destruct (refill_space len cap Hle) as [Hspace Hfit].
  set (cap' := if (cap - len <? minRead)%nat then 2 * cap + minRead else cap) in *.
  pose proof (Read_closed (cap' - len) b) as [Hcl _].
  pose proof (Read_failure (cap' - len) b) as Hfl.
  destruct (Read (cap' - len) b) as [[p | e] b1] eqn:HR; cbn [snd] in Hcl, Hfl.
  - destruct (Read_data _ _ _ _ HR) as (Htext & Hp & Hsize).
    specialize (Hsize Hspace).
    unfold scan_text. rewrite Htext, scan_bytes_app.
    destruct (scan_bytes sc p) as [sc' | v |]; try reflexivity.
    rewrite IH; [| congruence | apply Hfit; exact Hp | lia].
    unfold scan_text. now rewrite Hfl.
  - destruct (Read_end_text _ _ _ _ Hopen HR) as [Htext He].
    unfold scan_text. rewrite Htext. cbn [scan_bytes]. unfold at_end.
    subst e. destruct (failure b) as [m |]; [reflexivity |].
    destruct (step sc " "%char); reflexivity.
Qed.

Lemma readValue_text (b : Body) :
  closed b = false ->
  fst (readValue b) = scan_text scanner_reset (body_text b) (failure b).
Proof.
  intros Hopen. unfold readValue, body_fuel.
  apply readValue_loop_text; [exact Hopen | lia | lia].
Qed.

(** [Decode] as a function of the text of the body. *)
Lemma Decode_text (b : Body) (r : ZoneUpdateResponse) :
  closed b = false ->
  fst (Decode b r)
  = match scan_text scanner_reset (body_text b) (failure b) with
    | inl v =>
      (fst (dec_ZoneUpdateResponse v r),
       if snd (dec_ZoneUpdateResponse v r) then None else Some UnmarshalTypeError)
    | inr e => (r, Some e)
    end.
Proof.
  intros Hopen. unfold Decode.
  rewrite <- (readValue_text b Hopen).
  destruct (readValue b) as [[v | e] b1]; cbn [fst]; [| reflexivity].
  destruct (dec_ZoneUpdateResponse v r) as [r' ok]. reflexivity.
Qed.

Lemma Present_unfold DNS01Record Do d domain token keyAuth w :
  Present DNS01Record Do d domain token keyAuth w
  = let '(fqdn, value, ttl) := DNS01Record domain keyAuth in
    let body := fst (json_Marshal (Present_request d fqdn value ttl)) in
    let out := doRequest Do d MethodPost "/zoneUpdate" body
                 (mkWorld (sent w) (bodies w) (stdout w ++ debug_line body)) in
    (snd (fst out), snd out).
Proof.
  unfold Present. destruct (DNS01Record domain keyAuth) as [[fqdn value] ttl].
  cbn [json_Marshal fst]. unfold bind, Printf, ret. cbv zeta.
  destruct (doRequest Do d MethodPost _ _ _) as [res w2]. reflexivity.
Qed.

Lemma CleanUp_unfold DNS01Record Do d domain token keyAuth w :
  CleanUp DNS01Record Do d domain token keyAuth w
  = let '(fqdn, value, _) := DNS01Record domain keyAuth in
    let body := fst (json_Marshal (CleanUp_request d fqdn value)) in
    let out := doRequest Do d MethodPost "/zoneUpdate" body
                 (mkWorld (sent w) (bodies w) (stdout w ++ debug_line body)) in
    (snd (fst out), snd out).
Proof.
  unfold CleanUp. destruct (DNS01Record domain keyAuth) as [[fqdn value] ttl].
  cbn [json_Marshal fst]. unfold bind, Printf, ret. cbv zeta.
  destruct (doRequest Do d MethodPost _ _ _) as [res w2]. reflexivity.
Qed.

(** [doRequest] returns no error exactly when the client returned a response
    whose body decoded to the status [success]. *)
Lemma doRequest_nil_iff Do d uri body w :
  snd (fst (doRequest Do d MethodPost uri body w)) = None
  <-> exists resp r b',
        Do (client d) (mkRequest MethodPost (HostingdeAPIURL ++ uri) body) = DoResponse resp
        /\ Decode (resp_Body resp) zero_ZoneUpdateResponse = ((r, None), b')
        /\ Status r = "success".
Proof.
  rewrite (doRequest_unfold Do d MethodPost uri body w _ (NewRequest_POST _ _)).
  cbv zeta. split.
  - destruct (Do (client d) _) as [msg | resp]; [discriminate |].
    destruct (Decode (resp_Body resp) zero_ZoneUpdateResponse) as [[r err] b1] eqn:HDec.
    cbn [fst snd]. destruct err as [err |]; [discriminate |].
    destruct (String.eqb_spec (Status r) "success") as [HSt | HSt]; [| discriminate].
    intros _. now exists resp, r, b1.
  - intros (resp & r & b' & HDo & HDec & HSt).
    rewrite HDo, HDec. cbn [fst snd]. now rewrite HSt.
Qed.

(** ** When a call succeeds *)

(** X4.  [Present] returns no error exactly when the client returned a
    response to its request and the body of that response decoded, without
    error, into a [ZoneUpdateResponse] with the status [success]; the same
    holds for [CleanUp].  In every other case (an error of the client, a body
    that does not decode, any other status) the caller gets an error. *)
Theorem nil_iff_success :
  forall DNS01Record Do d domain token keyAuth w,
    let '(fqdn, value, ttl) := DNS01Record domain keyAuth in
    let decoded_success (body : string) :=
      exists resp r b',
        Do (client d) (mkRequest MethodPost zoneUpdateURL body) = DoResponse resp
        /\ Decode (resp_Body resp) zero_ZoneUpdateResponse = ((r, None), b')
        /\ Status r = "success" in
    (fst (Present DNS01Record Do d domain token keyAuth w) = None
     <-> decoded_success (fst (json_Marshal (Present_request d fqdn value ttl))))
    /\ (fst (CleanUp DNS01Record Do d domain token keyAuth w) = None
        <-> decoded_success (fst (json_Marshal (CleanUp_request d fqdn value)))).
Proof.
  intros DNS01Record Do d domain token keyAuth w.
  rewrite Present_unfold, CleanUp_unfold.
  destruct (DNS01Record domain keyAuth) as [[fqdn value] ttl].
  cbv zeta. cbn [fst]. split; apply doRequest_nil_iff.
Qed.

(** ** A member of the wrong type *)

Lemma dec_members_false {T : Type} (setf : string -> json -> T -> T * bool)
  (ms : list (string * json)) (k : string) (x : json) (r : T) :
  In (k, x) ms ->
  (forall r', snd (setf k x r') = false) ->
  snd (dec_members setf ms r) = false.
Proof.
  revert r. induction ms as [| [k' v'] ms IH]; intros r Hin Hbad; [contradiction |].
  cbn [dec_members].
  destruct (setf k' v' r) as [r1 ok1] eqn:H1.
  destruct (dec_members setf ms r1) as [r2 ok2] eqn:H2. cbn [snd].
  destruct Hin as [Heq | Hin].
  - inversion Heq; subst. specialize (Hbad r). rewrite H1 in Hbad. cbn in Hbad.
    now subst ok1.
  - specialize (IH r1 Hin Hbad). rewrite H2 in IH. cbn in IH. subst ok2.
    apply andb_false_r.
Qed.

Lemma doRequest_decode_failure Do d uri body w resp e :
  Do (client d) (mkRequest MethodPost (HostingdeAPIURL ++ uri) body) = DoResponse resp ->
  snd (fst (Decode (resp_Body resp) zero_ZoneUpdateResponse)) = Some e ->
  snd (fst (doRequest Do d MethodPost uri body w)) = Some e.
Proof.
  intros HDo He.
  rewrite (doRequest_unfold Do d MethodPost uri body w _ (NewRequest_POST _ _)).
  cbv zeta. rewrite HDo, He. reflexivity.
Qed.

(** X5.  A type error wins over the status.  When the body of the response
    is a JSON object with a member that does not fit the Go type of the field
    it names (whatever else the object holds, a status [success] included),
    [Present] and [CleanUp] fail with a [json.UnmarshalTypeError]. *)
Theorem type_error_overrides_status :
  forall DNS01Record Do d domain token keyAuth w ms k x,
    (forall c req, exists resp,
        Do c req = DoResponse resp
        /\ closed (resp_Body resp) = false
        /\ scan_bytes scanner_reset (body_text (resp_Body resp)) = Ended (JObject ms)) ->
    In (k, x) ms ->
    (forall r, snd (set_ZoneUpdateResponse k x r) = false) ->
    fst (Present DNS01Record Do d domain token keyAuth w) = Some UnmarshalTypeError
    /\ fst (CleanUp DNS01Record Do d domain token keyAuth w) = Some UnmarshalTypeError.
Proof.
  intros DNS01Record Do d domain token keyAuth w ms k x HDo Hin Hbad.
  assert (Hreq : forall uri body w',
             snd (fst (doRequest Do d MethodPost uri body w')) = Some UnmarshalTypeError).
  { intros uri body w'.
    destruct (HDo (client d) (mkRequest MethodPost (HostingdeAPIURL ++ uri) body))
      as (resp & Hresp & Hopen & Hscan).
    apply (doRequest_decode_failure Do d uri body w' resp _ Hresp).
    rewrite (Decode_text _ _ Hopen). unfold scan_text. rewrite Hscan.
    unfold dec_ZoneUpdateResponse, dec_struct.
    now rewrite (dec_members_false _ ms k x _ Hin Hbad). }
  rewrite Present_unfold, CleanUp_unfold.
  destruct (DNS01Record domain keyAuth) as [[fqdn value] ttl].
  cbv zeta. cbn [fst]. split; apply Hreq.
Qed.

(** The provider reports success and gives a record's [priority], a string
    in the struct, as a number. *)
Lemma type_error_overrides_status_witness :
  let body := "{" ++ jkey "status" ++ quoted "success" ++ ","
              ++ jkey "response" ++ "{" ++ jkey "records" ++ "[{"
              ++ jkey "priority" ++ "0}]}}" in
  fst (Present sample_DNS01Record (answer [body]) sample_provider
         "example.com" "token" "keyAuth" empty_world) = Some UnmarshalTypeError
  /\ fst (CleanUp sample_DNS01Record (answer [body]) sample_provider
            "example.com" "token" "keyAuth" empty_world) = Some UnmarshalTypeError.
Proof.
  cbv zeta.
  refine (type_error_overrides_status sample_DNS01Record _ sample_provider
            "example.com" "token" "keyAuth" empty_world
            [("status", JString "success");
             ("response", JObject [("records", JArray [JObject [("priority", JNumber "0")]])])]
            "response"
            (JObject [("records", JArray [JObject [("priority", JNumber "0")]])])
            _ _ _).
  - intros c req. eexists. split; [reflexivity |]. split; [reflexivity |].
    vm_compute. reflexivity.
  - right. left. reflexivity.
  - intros [e m wn st [[| recs] zc]]; [reflexivity |].
    destruct recs; reflexivity.
Defined.

(** ** Delivery *)

Lemma doRequest_delivery d body w code1 code2 b1 b2 :
  closed b1 = false -> closed b2 = false ->
  body_text b1 = body_text b2 -> failure b1 = failure b2 ->
  let e1 := snd (fst (doRequest (respond code1 b1) d MethodPost "/zoneUpdate" body w)) in
  let e2 := snd (fst (doRequest (respond code2 b2) d MethodPost "/zoneUpdate" body w)) in
  (e1 = None <-> e2 = None)
  /\ (e1 = e2 \/ exists t1 t2, e1 = Some (api_error t1) /\ e2 = Some (api_error t2)).
Proof.
  intros H1 H2 Htext Hfail. cbv zeta.
  rewrite !(doRequest_unfold _ d MethodPost "/zoneUpdate" body w _ (NewRequest_POST _ _)).
  cbv zeta. unfold respond. cbn [resp_Body].
  pose proof (Decode_text b1 zero_ZoneUpdateResponse H1) as D1.
  pose proof (Decode_text b2 zero_ZoneUpdateResponse H2) as D2.
  rewrite <- Htext, <- Hfail, <- D1 in D2.
  destruct (Decode b1 zero_ZoneUpdateResponse) as [[r1 err1] c1].
  destruct (Decode b2 zero_ZoneUpdateResponse) as [[r2 err2] c2].
  cbn [fst snd] in *. inversion D2; subst r2 err2.
  destruct err1 as [err |]; [split; [split; discriminate | now left] |].
  destruct (String.eqb (Status r1) "success"); [split; [tauto | now left] |].
  split; [split; discriminate |].
  right. unfold api_error, URL_String. cbn [URL].
  eexists. eexists. split; reflexivity.
Qed.

(** X6.  What a call returns does not depend on the pieces the network
    delivers the response body in, nor on the status code, with one
    exception: two responses with the same bytes (and the same end) make
    [Present] return the same result, and so [CleanUp], unless the status is
    not [success]; then both calls fail with the API error, and the response
    texts in the two messages may differ. *)
Theorem outcome_independent_of_delivery :
  forall DNS01Record d domain token keyAuth w code1 code2 b1 b2,
    closed b1 = false -> closed b2 = false ->
    body_text b1 = body_text b2 -> failure b1 = failure b2 ->
    let same (e1 e2 : option error) :=
      (e1 = None <-> e2 = None)
      /\ (e1 = e2
          \/ exists t1 t2, e1 = Some (api_error t1) /\ e2 = Some (api_error t2)) in
    same (fst (Present DNS01Record (respond code1 b1) d domain token keyAuth w))
         (fst (Present DNS01Record (respond code2 b2) d domain token keyAuth w))
    /\ same (fst (CleanUp DNS01Record (respond code1 b1) d domain token keyAuth w))
            (fst (CleanUp DNS01Record (respond code2 b2) d domain token keyAuth w)).
Proof.
  intros DNS01Record d domain token keyAuth w code1 code2 b1 b2 H1 H2 Htext Hfail.
  cbv zeta. rewrite !Present_unfold, !CleanUp_unfold.
  destruct (DNS01Record domain keyAuth) as [[fqdn value] ttl].
  cbv zeta. cbn [fst].
  split; apply doRequest_delivery; assumption.
Qed.

(** The same error response in two pieces and in one: [Present] fails both
    times, with the text [more] in the first message and none in the
    second. *)
Lemma outcome_independent_of_delivery_witness :
  let b1 := mkBody [sample_error_body; "more"] None false in
  let b2 := mkBody [sample_error_body ++ "more"] None false in
  let same (e1 e2 : option error) :=
    (e1 = None <-> e2 = None)
    /\ (e1 = e2
        \/ exists t1 t2, e1 = Some (api_error t1) /\ e2 = Some (api_error t2)) in
  same (fst (Present sample_DNS01Record (respond 200 b1) sample_provider
               "example.com" "token" "keyAuth" empty_world))
       (fst (Present sample_DNS01Record (respond 500 b2) sample_provider
               "example.com" "token" "keyAuth" empty_world))
  /\ same (fst (CleanUp sample_DNS01Record (respond 200 b1) sample_provider
                  "example.com" "token" "keyAuth" empty_world))
          (fst (CleanUp sample_DNS01Record (respond 500 b2) sample_provider
                  "example.com" "token" "keyAuth" empty_world)).
Proof.
  exact (outcome_independent_of_delivery sample_DNS01Record sample_provider
           "example.com" "token" "keyAuth" empty_world 200 500
           (mkBody [sample_error_body; "more"] None false)
           (mkBody [sample_error_body ++ "more"] None false)
           eq_refl eq_refl eq_refl eq_refl).
Defined.

Lemma delivery_changes_error_text :
  fst (Present sample_DNS01Record
         (respond 200 (mkBody [sample_error_body; "more"] None false))
         sample_provider "example.com" "token" "keyAuth" empty_world)
  = Some (api_error "more")
  /\ fst (Present sample_DNS01Record
            (respond 200 (mkBody [sample_error_body ++ "more"] None false))
            sample_provider "example.com" "token" "keyAuth" empty_world)
     = Some (api_error "").
Proof.
  split; vm_compute; reflexivity.
Qed.

(** ** A body that ends early *)

Ltac break_match :=
  repeat match goal with
         | H : context [if ?b then _ else _] |- _ => destruct b
         | H : context [match ?x with _ => _ end] |- _ => destruct x
         end.

Ltac wf_done H := try discriminate; inversion H; subst; exact I || reflexivity.

Lemma close_container_wf v rest sc' : close_container v rest = Continue sc' -> scanner_wf sc'.
Proof. unfold close_container, push_value. intros H. break_match; wf_done H. Qed.

Lemma scalar_done_wf v st sc' : scalar_done v st = Continue sc' -> scanner_wf sc'.
Proof. unfold scalar_done, push_value. intros H. break_match; wf_done H. Qed.

Lemma step_EndValue_wf st c sc' : step_EndValue st c = Continue sc' -> scanner_wf sc'.
Proof.
  unfold step_EndValue. intros H.
  repeat match goal with
         | H : context [if ?b then _ else _] |- _ => destruct b
         | H : context [match ?x with _ => _ end] |- _ => destruct x
         | H : close_container _ _ = Continue _ |- _ => apply close_container_wf in H; exact H
         end; wf_done H.
Qed.

Lemma step_BeginValue_wf st c sc' : step_BeginValue st c = Continue sc' -> scanner_wf sc'.
Proof. unfold step_BeginValue. intros H. break_match; wf_done H. Qed.

Lemma step_BeginString_wf st c sc' : step_BeginString st c = Continue sc' -> scanner_wf sc'.
Proof. unfold step_BeginString. intros H. break_match; wf_done H. Qed.

Lemma number_done_wf lit st c sc' : number_done lit st c = Continue sc' -> scanner_wf sc'.
Proof.
  unfold number_done. intros H.
  destruct st; [discriminate |].
  destruct (push_value _ _); [| discriminate].
  now apply step_EndValue_wf in H.
Qed.

Lemma step_number_wf ns lit st c sc' : step_number ns lit st c = Continue sc' -> scanner_wf sc'.
Proof.
  unfold step_number. intros H.
  destruct ns;
    repeat match goal with
           | H : context [if ?b then _ else _] |- _ => destruct b
           | H : number_done _ _ _ = Continue _ |- _ => apply number_done_wf in H; exact H
           end; wf_done H.
Qed.

Lemma string_done_wf raw st sc' : string_done raw st = Continue sc' -> scanner_wf sc'.
Proof.
  unfold string_done. intros H.
  destruct st as [| [es | ms [k |]] r];
    try (apply scalar_done_wf in H; exact H); wf_done H.
Qed.

Lemma step_wf sc c sc' : step sc c = Continue sc' -> scanner_wf sc'.
Proof.
  destruct sc as [l st]. unfold step. cbn [lx stack]. intros H.
  destruct l;
    repeat match goal with
           | H : step_BeginValue _ _ = Continue _ |- _ => apply step_BeginValue_wf in H; exact H
           | H : step_BeginString _ _ = Continue _ |- _ => apply step_BeginString_wf in H; exact H
           | H : step_EndValue _ _ = Continue _ |- _ => apply step_EndValue_wf in H; exact H
           | H : step_number _ _ _ _ = Continue _ |- _ => apply step_number_wf in H; exact H
           | H : string_done _ _ = Continue _ |- _ => apply string_done_wf in H; exact H
           | H : scalar_done _ _ = Continue _ |- _ => apply scalar_done_wf in H; exact H
           | H : context [if ?b then _ else _] |- _ => destruct b
           | H : context [match ?x with _ => _ end] |- _ => destruct x
           end; wf_done H.
Qed.

Lemma scan_bytes_wf (text : string) (sc sc' : scanner) :
  scanner_wf sc -> scan_bytes sc text = Continue sc' -> scanner_wf sc'.
Proof.
  revert sc. induction text as [| c text IH]; intros sc Hwf H; cbn [scan_bytes] in H.
  - now inversion H; subst.
  - destruct (step sc c) as [sc1 | v |] eqn:Hstep; try discriminate.
    apply (IH sc1); [now apply step_wf in Hstep | exact H].
Qed.

(** Inside an array or an object, the end of the input ends no value. *)
Lemma step_space_inside (sc : scanner) :
  scanner_wf sc -> stack sc <> [] ->
  at_start sc = false /\ forall v, step sc " "%char <> Ended v.
Proof.
  destruct sc as [l st]. unfold scanner_wf, at_start. cbn [lx stack].
  intros Hwf Hst. destruct st as [| f st]; [contradiction |].
  split; [destruct l; reflexivity |].
  intros v. unfold step. cbn [lx stack].
  destruct l; try discriminate;
    unfold step_number, number_done, scalar_done, push_value; cbn;
    repeat match goal with
           | |- context [Ascii.eqb ?a ?b] => destruct (Ascii.eqb a b)
           | |- context [match ?x with _ => _ end] => destruct x
           end; cbn; discriminate.
Qed.

Lemma scan_bytes_space (text : string) :
  all_space text = true -> scan_bytes scanner_reset text = Continue scanner_reset.
Proof.
  unfold all_space.
  induction text as [| c text IH]; cbn [list_ascii_of_string forallb scan_bytes];
    [reflexivity |].
  intros H. apply andb_prop in H as [Hc Ht].
  unfold step, scanner_reset. cbn [lx stack]. unfold step_BeginValue. rewrite Hc.
  exact (IH Ht).
Qed.

Lemma doRequest_incomplete d body w code b sc :
  closed b = false ->
  scan_bytes scanner_reset (body_text b) = Continue sc ->
  let e := snd (fst (doRequest (respond code b) d MethodPost "/zoneUpdate" body w)) in
  (forall m, failure b = Some m -> e = Some (ReadError m))
  /\ (failure b = None -> all_space (body_text b) = true -> e = Some EOF)
  /\ (failure b = None -> stack sc <> [] -> e = Some ErrUnexpectedEOF).
Proof.
  intros Hopen Hscan. cbv zeta.
  assert (Hdec : forall e,
             scan_text scanner_reset (body_text b) (failure b) = inr e ->
             snd (fst (doRequest (respond code b) d MethodPost "/zoneUpdate" body w))
             = Some e).
  { intros e He.
    apply (doRequest_decode_failure _ d "/zoneUpdate" body w (mkResponse code b));
      [reflexivity |].
    cbn [resp_Body]. rewrite (Decode_text _ _ Hopen), He. reflexivity. }
  split; [| split].
  - intros m Hm. apply Hdec. unfold scan_text, at_end. now rewrite Hscan, Hm.
  - intros Hf Hsp. apply Hdec. unfold scan_text, at_end.
    now rewrite (scan_bytes_space _ Hsp), Hf.
  - intros Hf Hst. apply Hdec. unfold scan_text, at_end. rewrite Hscan, Hf.
    assert (Hwf : scanner_wf sc)
      by (apply (scan_bytes_wf (body_text b) scanner_reset sc); [exact I | exact Hscan]).
    destruct (step_space_inside sc Hwf Hst) as [Hstart Hne].
    rewrite Hstart.
    destruct (step sc " "%char) as [sc1 | v |]; try reflexivity.
    now destruct (Hne v).
Qed.

(** X7.  A response body that ends before its JSON value does.  When reading
    the body fails before the value is complete, [Present] and [CleanUp]
    return the error of the read as it is.  When the body ends with nothing
    or only white space in it, they return [io.EOF]; when it ends inside an
    object or an array, [io.ErrUnexpectedEOF]. *)
Theorem incomplete_body_errors :
  forall DNS01Record d domain token keyAuth w code b sc,
    closed b = false ->
    scan_bytes scanner_reset (body_text b) = Continue sc ->
    let cases (e : option error) :=
      (forall m, failure b = Some m -> e = Some (ReadError m))
      /\ (failure b = None -> all_space (body_text b) = true -> e = Some EOF)
      /\ (failure b = None -> stack sc <> [] -> e = Some ErrUnexpectedEOF) in
    cases (fst (Present DNS01Record (respond code b) d domain token keyAuth w))
    /\ cases (fst (CleanUp DNS01Record (respond code b) d domain token keyAuth w)).
Proof.
  intros DNS01Record d domain token keyAuth w code b sc Hopen Hscan.
  cbv zeta. rewrite Present_unfold, CleanUp_unfold.
  destruct (DNS01Record domain keyAuth) as [[fqdn value] ttl].
  cbv zeta. cbn [fst].
  split; apply (doRequest_incomplete _ _ _ code b sc Hopen Hscan).
Qed.

(** A response cut off after the key of its first member, delivered in two
    pieces. *)
Lemma incomplete_body_errors_witness :
  let b := mkBody ["{"; quoted "status"] None false in
  fst (Present sample_DNS01Record (respond 200 b) sample_provider
         "example.com" "token" "keyAuth" empty_world) = Some ErrUnexpectedEOF
  /\ fst (CleanUp sample_DNS01Record (respond 200 b) sample_provider
            "example.com" "token" "keyAuth" empty_world) = Some ErrUnexpectedEOF.
Proof.
  cbv zeta.
  pose proof (incomplete_body_errors sample_DNS01Record sample_provider
                "example.com" "token" "keyAuth" empty_world 200
                (mkBody ["{"; quoted "status"] None false)
                (mkScanner EndValue [FObject [] (Some "status")])
                eq_refl eq_refl) as [(_ & _ & HP) (_ & _ & HC)].
  split; [apply HP | apply HC]; (reflexivity || discriminate).
Defined.

(** ** A challenge from start to end *)

Lemma doRequest_bodies Do d uri body w :
  exists new,
    bodies (snd (doRequest Do d MethodPost uri body w)) = (bodies w ++ new)%list
    /\ length new <= 1
    /\ Forall (fun b => closed b = true) new.
Proof.
  rewrite (doRequest_unfold Do d MethodPost uri body w _ (NewRequest_POST _ _)).
  cbv zeta.
  destruct (Do (client d) _) as [msg | resp].
  - exists []. cbn [snd bodies]. rewrite app_nil_r. repeat split; auto.
  - destruct (Decode (resp_Body resp) zero_ZoneUpdateResponse) as [[r err] b1].
    cbn [fst snd].
    destruct err as [err |]; [| destruct (String.eqb (Status r) "success")];
      eexists; cbn [snd bodies]; (split; [reflexivity |]);
      (split; [cbn; lia | repeat constructor]).
Qed.

Lemma Present_bodies DNS01Record Do d domain token keyAuth w :
  exists new,
    bodies (snd (Present DNS01Record Do d domain token keyAuth w))
    = (bodies w ++ new)%list
    /\ length new <= 1
    /\ Forall (fun b => closed b = true) new.
Proof.
  rewrite Present_unfold.
  destruct (DNS01Record domain keyAuth) as [[fqdn value] ttl]. cbv zeta. cbn [snd].
  match goal with
  | |- context [doRequest Do d MethodPost ?u ?b ?w'] =>
    exact (doRequest_bodies Do d u b w')
  end.
Qed.

Lemma CleanUp_bodies DNS01Record Do d domain token keyAuth w :
  exists new,
    bodies (snd (CleanUp DNS01Record Do d domain token keyAuth w))
    = (bodies w ++ new)%list
    /\ length new <= 1
    /\ Forall (fun b => closed b = true) new.
Proof.
  rewrite CleanUp_unfold.
  destruct (DNS01Record domain keyAuth) as [[fqdn value] ttl]. cbv zeta. cbn [snd].
  match goal with
  | |- context [doRequest Do d MethodPost ?u ?b ?w'] =>
    exact (doRequest_bodies Do d u b w')
  end.
Qed.

(** X8.  [Present] followed by [CleanUp] for the same challenge.  Two
    requests go out, in this order and with no other in between: the first
    adds a record, the second deletes a record with the same name, type and
    content, in the same zone and with the same token (the argument [token]
    of either call plays no part).  Whatever the provider answers, at most
    two response bodies are received, and each is closed when the calls
    return. *)
Theorem CleanUp_retracts_what_Present_published :
  forall DNS01Record Do d domain token token' keyAuth w,
    let w1 := snd (Present DNS01Record Do d domain token keyAuth w) in
    let w2 := snd (CleanUp DNS01Record Do d domain token' keyAuth w1) in
    let '(fqdn, value, ttl) := DNS01Record domain keyAuth in
    let added := Present_request d fqdn value ttl in
    let deleted := CleanUp_request d fqdn value in
    sent w2
    = (sent w ++ [mkRequest MethodPost zoneUpdateURL (fst (json_Marshal added));
                  mkRequest MethodPost zoneUpdateURL (fst (json_Marshal deleted))])%list
    /\ AuthToken deleted = AuthToken added
    /\ ZoneConfig deleted = ZoneConfig added
    /\ map (fun x => (del_Name x, del_Type x, del_Content x))
         (slice_elems (RecordsToDelete deleted))
       = map (fun a => (add_Name a, add_Type a, add_Content a))
           (slice_elems (RecordsToAdd added))
    /\ exists new,
         bodies w2 = (bodies w ++ new)%list
         /\ length new <= 2
         /\ Forall (fun b => closed b = true) new.
Proof.
  intros DNS01Record Do d domain token token' keyAuth w. cbv zeta.
  set (w1 := snd (Present DNS01Record Do d domain token keyAuth w)).
  pose proof (Present_sent DNS01Record Do d domain token keyAuth w) as HsP.
  pose proof (CleanUp_sent DNS01Record Do d domain token' keyAuth w1) as HsC.
  destruct (Present_bodies DNS01Record Do d domain token keyAuth w)
    as (new1 & Hb1 & Hl1 & Hc1).
  destruct (CleanUp_bodies DNS01Record Do d domain token' keyAuth w1)
    as (new2 & Hb2 & Hl2 & Hc2).
  fold w1 in HsP, Hb1.
  destruct (DNS01Record domain keyAuth) as [[fqdn value] ttl].
  cbn [fst snd] in HsP, HsC.
  split; [rewrite HsC, HsP, <- app_assoc; reflexivity |].
  split; [reflexivity |]. split; [reflexivity |]. split; [reflexivity |].
  exists (new1 ++ new2)%list. rewrite Hb2, Hb1, <- app_assoc.
  split; [reflexivity |]. split; [rewrite length_app; lia |].
  apply Forall_app. now split.
Qed.

(** ** Construction from the environment *)

Lemma NewDNSProviderCredentials_spec_aux (key zone : string) (w : World) :
  snd (NewDNSProviderCredentials key zone w) = w
  /\ (key = "" \/ zone = "" ->
      fst (NewDNSProviderCredentials key zone w)
      = inr (errorString "Hostingde: API key or Zone Name missing"))
  /\ (key <> "" -> zone <> "" ->
      fst (NewDNSProviderCredentials key zone w)
      = inl (mkDNSProvider key zone (mkClient 30000000000%Z))).
Proof.
  unfold NewDNSProviderCredentials.
  destruct (String.eqb_spec key "") as [Hk | Hk];
    destruct (String.eqb_spec zone "") as [Hz | Hz]; cbn [orb ret fst snd].
  all: split; [reflexivity |]; split.
  all: try (intros _; reflexivity).
  all: try (intros Hk' Hz'; congruence).
  all: try (intros [H | H]; congruence).
  all: try reflexivity.
Qed.

(** X9.  [NewDNSProvider] asks [env.Get] for HOSTINGDE_API_KEY and
    HOSTINGDE_ZONE_NAME.  An error of [env.Get] comes back with the prefix
    [Hostingde: ].  A map that lacks one of the two keys, or holds the empty
    string for it, gives the error "Hostingde: API key or Zone Name missing".
    Otherwise the provider holds the two values and a client with a timeout
    of 30 seconds.  In no case is a request sent. *)
Theorem NewDNSProvider_cases :
  forall (env_Get : list string -> go_map * option string) (w : World),
    let '(values, err) := env_Get ["HOSTINGDE_API_KEY"; "HOSTINGDE_ZONE_NAME"] in
    let key := map_get values "HOSTINGDE_API_KEY" in
    let zone := map_get values "HOSTINGDE_ZONE_NAME" in
    let out := NewDNSProvider env_Get w in
    snd out = w
    /\ (forall msg, err = Some msg ->
        fst out = inr (errorString ("Hostingde: " ++ msg)))
    /\ (err = None -> key = "" \/ zone = "" ->
        fst out = inr (errorString "Hostingde: API key or Zone Name missing"))
    /\ (err = None -> key <> "" -> zone <> "" ->
        fst out = inl (mkDNSProvider key zone (mkClient 30000000000%Z))).
Proof.
  intros env_Get w. unfold NewDNSProvider.
  destruct (env_Get ["HOSTINGDE_API_KEY"; "HOSTINGDE_ZONE_NAME"]) as [values err].
  cbv zeta.
  destruct (NewDNSProviderCredentials_spec_aux (map_get values "HOSTINGDE_API_KEY")
              (map_get values "HOSTINGDE_ZONE_NAME") w) as (Hw & Hbad & Hgood).
  destruct err as [msg |].
  - cbn [ret snd fst]. split; [reflexivity |]. split; [| split]; try discriminate.
    intros msg' H. now inversion H.
  - split; [exact Hw |]. split; [discriminate |].
    split; intros _; [exact Hbad | exact Hgood].
Qed.

(** ** The debug line *)

Lemma read_dump_byte_ok (c : ascii) (t : string) :
  read_dump_byte (dump_byte c ++ String ","%char t) = Some (byte_val c, String ","%char t)
  /\ read_dump_byte (dump_byte c ++ String "}"%char t) = Some (byte_val c, String "}"%char t).
Proof.
  destruct c as [[] [] [] [] [] [] [] []]; split; vm_compute; reflexivity.
Qed.

Lemma byte_val_inj (c1 c2 : ascii) : byte_val c1 = byte_val c2 -> c1 = c2.
Proof.
  unfold byte_val. intros H.
  rewrite <- (ascii_nat_embedding c1), <- (ascii_nat_embedding c2). now rewrite H.
Qed.

Lemma dump_byte_unique (c1 c2 : ascii) (t1 t2 : string) :
  dump_tail t1 -> dump_tail t2 ->
  dump_byte c1 ++ t1 = dump_byte c2 ++ t2 -> c1 = c2 /\ t1 = t2.
Proof.
  intros [t1' H1] [t2' H2] Heq.
  assert (Hr : read_dump_byte (dump_byte c1 ++ t1) = read_dump_byte (dump_byte c2 ++ t2))
    by now rewrite Heq.
  destruct (read_dump_byte_ok c1 t1') as [A1 B1].
  destruct (read_dump_byte_ok c2 t2') as [A2 B2].
  destruct H1 as [-> | ->]; destruct H2 as [-> | ->];
    rewrite ?A1, ?B1, ?A2, ?B2 in Hr; inversion Hr as [[Hc Ht]];
    (split; [now apply byte_val_inj | first [reflexivity | now rewrite Ht | idtac]]).
Qed.

Lemma dump_elems_cons (c : ascii) (cs : list ascii) :
  dump_elems (c :: cs)
  = dump_byte c ++ match cs with [] => "}" | _ => ", " ++ dump_elems cs end.
Proof.
  unfold dump_elems, dump_byte. cbn [map String.concat].
  destruct cs as [| c' cs]; [reflexivity |].
  cbn [map]. now rewrite !string_app_assoc.
Qed.

Lemma dump_elems_inj (cs1 cs2 : list ascii) :
  dump_elems cs1 = dump_elems cs2 -> cs1 = cs2.
Proof.
  revert cs2. induction cs1 as [| c1 cs1 IH]; intros [| c2 cs2] H.
  - reflexivity.
  - rewrite dump_elems_cons in H. discriminate.
  - rewrite dump_elems_cons in H. discriminate.
  - rewrite !dump_elems_cons in H.
    apply dump_byte_unique in H.
    + destruct H as [-> Ht]. f_equal.
      destruct cs1 as [| a cs1]; destruct cs2 as [| b cs2]; try discriminate;
        [reflexivity |].
      apply IH. cbn [append] in Ht. now inversion Ht.
    + destruct cs1; eexists; [right | left]; reflexivity.
    + destruct cs2; eexists; [right | left]; reflexivity.
Qed.

Lemma GoString_bytes_inj (s1 s2 : string) :
  GoString_bytes s1 = GoString_bytes s2 -> s1 = s2.
Proof.
  unfold GoString_bytes. intros H.
  change (("[]byte{" ++ dump_elems (list_ascii_of_string s1))
          = ("[]byte{" ++ dump_elems (list_ascii_of_string s2))) in H.
  cbn [append] in H. inversion H as [H'].
  apply dump_elems_inj in H'.
  rewrite <- (string_of_list_ascii_of_string s1), <- (string_of_list_ascii_of_string s2).
  now rewrite H'.
Qed.

Lemma string_app_inv_tail (a b c : string) : a ++ c = b ++ c -> a = b.
Proof.
  revert b. induction a as [| x a IH]; intros [| y b] H; cbn [append] in H.
  - reflexivity.
  - apply (f_equal String.length) in H. cbn [String.length] in H.
    rewrite string_length_app in H. lia.
  - apply (f_equal String.length) in H. cbn [String.length] in H.
    rewrite string_length_app in H. lia.
  - inversion H as [[Hx Ht]]. f_equal. now apply IH.
Qed.

Lemma string_app_inv_head (c a b : string) : c ++ a = c ++ b -> a = b.
Proof.
  induction c as [| x c IH]; cbn [append]; intros H; [exact H |].
  injection H as H. now apply IH.
Qed.

Lemma doRequest_stdout Do d method uri body w :
  stdout (snd (doRequest Do d method uri body w)) = stdout w.
Proof.
  unfold doRequest.
  destruct (http_NewRequest method (HostingdeAPIURL ++ uri) body) as [req | err];
    [| reflexivity].
  unfold bind, client_Do.
  destruct (Do (client d) req) as [msg | resp]; reflexivity.
Qed.

(** X10.  [Present] and [CleanUp] each print one line to the standard
    output, whatever becomes of the request: the label [Cleanup:] (in
    [Present] too) and the body of the request as a Go byte-slice literal.
    The literal determines the body byte for byte, so the authentication
    token in it can be read off the output. *)
Theorem debug_line_reveals_body :
  forall DNS01Record Do d domain token keyAuth w,
    let '(fqdn, value, ttl) := DNS01Record domain keyAuth in
    let printed (body : string) :=
      "Cleanup: " ++ str1 LF ++ " " ++ GoString_bytes body ++ " " ++ str1 LF in
    let added := fst (json_Marshal (Present_request d fqdn value ttl)) in
    let deleted := fst (json_Marshal (CleanUp_request d fqdn value)) in
    stdout (snd (Present DNS01Record Do d domain token keyAuth w))
    = stdout w ++ printed added
    /\ stdout (snd (CleanUp DNS01Record Do d domain token keyAuth w))
       = stdout w ++ printed deleted
    /\ (forall body, printed body = printed added -> body = added)
    /\ (forall body, printed body = printed deleted -> body = deleted).
Proof.
  intros DNS01Record Do d domain token keyAuth w.
  rewrite Present_unfold, CleanUp_unfold.
  destruct (DNS01Record domain keyAuth) as [[fqdn value] ttl]. cbv zeta.
  cbn [snd]. rewrite !doRequest_stdout. cbn [stdout].
  assert (Hinj : forall a b,
             "Cleanup: " ++ str1 LF ++ " " ++ GoString_bytes a ++ " " ++ str1 LF
             = "Cleanup: " ++ str1 LF ++ " " ++ GoString_bytes b ++ " " ++ str1 LF ->
             a = b).
  { intros a b H.
    do 3 apply string_app_inv_head in H.
    apply GoString_bytes_inj. exact (string_app_inv_tail _ _ _ H). }
  split; [reflexivity |]. split; [reflexivity |].
  split; intros body H; exact (Hinj _ _ H).
Qed.

(** ** The request body read back *)

Lemma rev_chars_app a b : rev_chars (a ++ b) = (rev_chars b ++ rev_chars a)%list.
Proof.
  unfold rev_chars. induction a as [| x a IH]; cbn [append list_ascii_of_string List.rev].
  - now rewrite app_nil_r.
  - now rewrite IH, app_assoc.
Qed.

Lemma stays_app a b : stays a -> stays b -> stays (a ++ b).
Proof.
  intros Ha Hb raw st. rewrite scan_bytes_app, Ha, Hb, rev_chars_app, app_assoc. reflexivity.
Qed.

Lemma stays_nil : stays "".
Proof. intros raw st. reflexivity. Qed.

Lemma stays_escape_byte b :
  (byte_val b <? 0x80)%nat = true -> htmlSafe b = false -> stays (escape_byte b).
Proof.
  destruct b as [[] [] [] [] [] [] [] []]; intros H1 H2; try discriminate;
    intros raw st; vm_compute; reflexivity.
Qed.

Lemma stays_safe b : htmlSafe b = true -> stays (str1 b).
Proof.
  destruct b as [[] [] [] [] [] [] [] []]; intros H; try discriminate;
    intros raw st; vm_compute; reflexivity.
Qed.

Lemma stays_high b : (byte_val b <? 0x80)%nat = false -> stays (str1 b).
Proof.
  destruct b as [[] [] [] [] [] [] [] []]; intros H; try discriminate;
    intros raw st; vm_compute; reflexivity.
Qed.

Lemma stays_hex_escape (k : nat) : stays (String backslash ("u202" ++ str1 (hex k))).
Proof.
  do 16 (destruct k as [| k]; [intros raw st; vm_compute; reflexivity |]).
  intros raw st. vm_compute. reflexivity.
Qed.

Lemma stays_replacement : stays (String backslash "ufffd").
Proof. intros raw st. vm_compute. reflexivity. Qed.

Lemma line_separator_hex (s : string) (dch : ascii) :
  line_separator s = Some dch -> exists k, dch = hex k.
Proof.
  unfold line_separator.
  destruct s as [| b0 [| b1 [| b2 t]]]; try discriminate.
  destruct (_ && _); [| discriminate].
  intros H. inversion H. eexists. reflexivity.
Qed.

Lemma in_range_widen (lo hi lo' hi' : nat) (c : ascii) :
  lo' <= lo -> hi <= hi' -> in_range lo hi c = true -> in_range lo' hi' c = true.
Proof.
  unfold in_range. intros Hlo Hhi H. apply andb_prop in H as [H1 H2].
  apply Nat.leb_le in H1, H2. apply andb_true_intro; split; apply Nat.leb_le; lia.
Qed.

Lemma utf8_width_continuation (b : ascii) (t : string) (w : nat) :
  (byte_val b <? 0x80)%nat = false ->
  utf8_width (String b t) = S w -> continuation w t = true.
Proof.
  intros Hb H. unfold utf8_width in H. rewrite Hb in H.
  repeat match type of H with
         | context [if ?c then _ else _] => destruct c
         end; try discriminate;
    (destruct t as [| b1 t1]; [discriminate |]);
    match type of H with
    | context [in_range ?lo ?hi b1 && ?k] =>
      destruct (in_range lo hi b1) eqn:Hr; [| discriminate];
      destruct k eqn:Hk; [| discriminate];
      apply (in_range_widen lo hi 0x80 0xBF) in Hr; [| lia | lia]
    end;
    cbn [andb] in H; injection H as <-;
    cbn [continuation Nat.sub] in *;
    rewrite Hr; exact Hk.
Qed.

Lemma continuation_head (k : nat) (b : ascii) (t : string) :
  continuation (S k) (String b t) = true ->
  (byte_val b <? 0x80)%nat = false /\ continuation k t = true.
Proof.
  cbn [continuation]. intros H. apply andb_prop in H as [Hb Ht]. split; [| exact Ht].
  unfold in_range in Hb. apply andb_prop in Hb as [Hlo _].
  apply Nat.leb_le in Hlo. apply Nat.ltb_ge. exact Hlo.
Qed.

Lemma stays_escape_from (s : string) :
  forall copy skip,
    copy = 0 \/ (skip = 0 /\ continuation copy s = true) ->
    stays (escape_from copy skip s).
Proof.
  induction s as [| b t IH]; intros copy skip Hinv; [apply stays_nil |].
  cbn [escape_from].
  destruct skip as [| k].
  - destruct copy as [| k].
    + destruct (byte_val b <? 0x80)%nat eqn:Hb.
      * destruct (htmlSafe b) eqn:Hs.
        -- apply (stays_app (str1 b)); [now apply stays_safe | apply IH; now left].
        -- apply stays_app; [now apply stays_escape_byte | apply IH; now left].
      * destruct (utf8_width (String b t)) as [| w] eqn:Hw.
        -- apply (stays_app (String backslash "ufffd"));
             [apply stays_replacement | apply IH; now left].
        -- destruct (line_separator (String b t)) as [dch |] eqn:Hl.
           ++ destruct (line_separator_hex _ _ Hl) as [n ->].
              change (String backslash "u202" ++ String (hex n) (escape_from 0 2 t))
                with (String backslash ("u202" ++ str1 (hex n)) ++ escape_from 0 2 t).
              apply stays_app; [apply stays_hex_escape | apply IH; now left].
           ++ apply (stays_app (str1 b)); [now apply stays_high |].
              apply IH. right. split; [reflexivity |].
              now apply (utf8_width_continuation b).
    + destruct Hinv as [Hc | [_ Hc]]; [discriminate |].
      apply continuation_head in Hc as [Hb Ht].
      apply (stays_app (str1 b)); [now apply stays_high |].
      apply IH. right. now split.
  - destruct Hinv as [-> | [Hk _]]; [| discriminate].
    apply IH. now left.
Qed.

Lemma text_of_rev_chars (s : string) : text_of (rev_chars s ++ [])%list = s.
Proof.
  unfold text_of, rev_chars. rewrite List.app_nil_r, List.rev_involutive.
  apply string_of_list_ascii_of_string.
Qed.

(** A string value in an object: the scanner reads the encoder's literal as
    one string and stores what [unquote] makes of it. *)

Lemma scan_string_member (s k : string) (ms : list (string * json)) (r : list frame) :
  scan_bytes (mkScanner BeginValue (FObject ms (Some k) :: r)) (encode_string s)
  = Continue (mkScanner EndValue (FObject ((k, JString (read_back s)) :: ms) None :: r)).
Proof.
  unfold encode_string. cbn [scan_bytes]. 
  change (step (mkScanner BeginValue (FObject ms (Some k) :: r)) dquote)
    with (Continue (in_string [] (FObject ms (Some k) :: r))).
  cbv iota beta.
  rewrite scan_bytes_app.
  rewrite (stays_escape_from s 0 0 (or_introl eq_refl)).
  cbn [scan_bytes str1]. unfold in_string, step. cbn [lx stack].
  change (is_byte 34 dquote) with true. cbv iota.
  unfold string_done. rewrite text_of_rev_chars. reflexivity.
Qed.

Lemma unquote_safe (b : ascii) (x : string) :
  htmlSafe b = true -> unquote_from 0 (String b x) = String b (unquote_from 0 x).
Proof.
  destruct b as [[] [] [] [] [] [] [] []]; intros H; try discriminate; reflexivity.
Qed.

Lemma unquote_escape_byte (b : ascii) (x : string) :
  (byte_val b <? 0x80)%nat = true -> htmlSafe b = false ->
  unquote_from 0 (escape_byte b ++ x) = String b (unquote_from 0 x).
Proof.
  destruct b as [[] [] [] [] [] [] [] []]; intros H1 H2; try discriminate; reflexivity.
Qed.

Lemma read_back_ascii (s : string) : ascii_only s = true -> read_back s = s.
Proof.
  unfold read_back, unquote, ascii_only.
  induction s as [| b t IH]; [reflexivity |].
  cbn [list_ascii_of_string forallb escape_from]. intros H.
  apply andb_prop in H as [Hb Ht]. rewrite Hb.
  destruct (htmlSafe b) eqn:Hs.
  - rewrite (unquote_safe _ _ Hs). f_equal. now apply IH.
  - rewrite (unquote_escape_byte _ _ Hb Hs). f_equal. now apply IH.
Qed.

Lemma scan_digits (d : uint) (lit : list ascii) (st : list frame) :
  scan_bytes (in_number N1 lit st) (NilEmpty.string_of_uint d)
  = Continue (in_number N1 (rev_chars (NilEmpty.string_of_uint d) ++ lit) st).
Proof.
  revert lit. induction d; intros lit; cbn [NilEmpty.string_of_uint];
    try reflexivity;
    cbn [scan_bytes];
    match goal with
    | |- context [step (in_number N1 lit st) ?c] =>
      change (step (in_number N1 lit st) c) with (Continue (in_number N1 (c :: lit) st))
    end;
    cbv iota beta; rewrite IHd;
    unfold rev_chars; cbn [list_ascii_of_string List.rev];
    now rewrite <- List.app_assoc.
Qed.

Lemma to_uint_normal (p : positive) :
  Pos.to_uint p <> Nil /\ forall d, Pos.to_uint p <> D0 d.
Proof.
  split; [apply DecimalPos.Unsigned.to_uint_nonnil |].
  intros d H.
  pose proof (DecimalPos.Unsigned.to_of (Pos.to_uint p)) as Hn.
  rewrite DecimalPos.Unsigned.of_to in Hn. cbn [N.to_uint] in Hn.
  assert (Hz : nzhead (Pos.to_uint p) <> Nil).
  { intros Hnil. apply DecimalFacts.unorm_0 in Hnil. rewrite <- Hn in Hnil.
    now apply DecimalPos.Unsigned.to_uint_nonzero in Hnil. }
  rewrite (DecimalFacts.unorm_nzhead _ Hz) in Hn.
  rewrite Hn in H. now apply DecimalFacts.nzhead_nonzero in H.
Qed.

Lemma step_first_digit (c : ascii) (st : list frame) :
  in_range 49 57 c = true ->
  step (mkScanner BeginValue st) c = Continue (in_number N1 [c] st).
Proof.
  destruct c as [[] [] [] [] [] [] [] []]; intros H; try discriminate; reflexivity.
Qed.

Lemma step_neg_digit (c : ascii) (lit : list ascii) (st : list frame) :
  in_range 49 57 c = true ->
  step (in_number NNeg lit st) c = Continue (in_number N1 (c :: lit) st).
Proof.
  destruct c as [[] [] [] [] [] [] [] []]; intros H; try discriminate; reflexivity.
Qed.

Lemma scan_positive (p : positive) (st : list frame) :
  let text := NilEmpty.string_of_uint (Pos.to_uint p) in
  NilZero.string_of_uint (Pos.to_uint p) = text
  /\ scan_bytes (mkScanner BeginValue st) text
     = Continue (in_number N1 (rev_chars text ++ []) st)
  /\ forall lit,
       scan_bytes (in_number NNeg lit st) text
       = Continue (in_number N1 (rev_chars text ++ lit) st).
Proof.
  cbv zeta. destruct (to_uint_normal p) as [Hnil Hzero].
  destruct (Pos.to_uint p) as [| d | d | d | d | d | d | d | d | d | d];
    [now destruct Hnil | now destruct (Hzero d) | ..];
    (split; [reflexivity |]);
    cbn [NilEmpty.string_of_uint scan_bytes];
    (split; [| intros lit]);
    rewrite ?step_first_digit, ?step_neg_digit by reflexivity;
    rewrite scan_digits;
    unfold rev_chars; cbn [list_ascii_of_string List.rev];
    now rewrite <- List.app_assoc.
Qed.

Lemma scan_itoa (z : Z) (st : list frame) :
  exists ns lit,
    (ns = N0 \/ ns = N1)
    /\ text_of lit = itoa z
    /\ scan_bytes (mkScanner BeginValue st) (itoa z) = Continue (in_number ns lit st).
Proof.
  unfold itoa.
  destruct z as [| p | p]; cbn [Z.to_int NilZero.string_of_int].
  - exists N0, ["0"%char]. split; [now left |]. split; reflexivity.
  - destruct (scan_positive p st) as (Hs & Hscan & _). rewrite Hs.
    eexists N1, _. split; [now right |]. split; [| exact Hscan].
    apply text_of_rev_chars.
  - destruct (scan_positive p st) as (Hs & _ & Hscan). rewrite Hs.
    eexists N1, _. split; [now right |]. split.
    2: { cbn [scan_bytes].
         change (step (mkScanner BeginValue st) "-"%char)
           with (Continue (in_number NNeg ["-"%char] st)).
         cbv iota beta. apply Hscan. }
    unfold text_of, rev_chars.
    rewrite List.rev_app_distr, List.rev_involutive. cbn [List.rev List.app].
    cbn [string_of_list_ascii]. f_equal. apply string_of_list_ascii_of_string.
Qed.




Lemma ends_seq (sc sc' : scanner) (a b : string) (v : json) :
  scan_bytes sc a = Continue sc' ->
  ends_on_last_byte sc' b v -> ends_on_last_byte sc (a ++ b) v.
Proof.
  intros Ha (init & last & sc2 & -> & Hinit & Hlast).
  exists (a ++ init), last, sc2.
  split; [now rewrite string_app_assoc |].
  split; [now rewrite scan_bytes_app, Ha | exact Hlast].
Qed.

Lemma start_of_snoc (a b init : string) (last : ascii) :
  init ++ str1 last = a ++ b -> b <> "" -> exists c, init = a ++ c.
Proof.
  revert init. induction a as [| x a IH]; intros init H Hb.
  - exists init. reflexivity.
  - destruct init as [| y init]; cbn [append str1] in H.
    + injection H as _ H. destruct a; [cbn in H; now subst b | discriminate].
    + injection H as -> H. destruct (IH init H Hb) as [c ->].
      exists c. reflexivity.
Qed.

Lemma scan_start_continues (sc sc' : scanner) (a c : string) :
  scan_bytes sc (a ++ c) = Continue sc' -> exists sc2, scan_bytes sc a = Continue sc2.
Proof.
  rewrite scan_bytes_app.
  destruct (scan_bytes sc a) as [sc2 | v |]; [eauto | discriminate | discriminate].
Qed.

Lemma ends_whole (text : string) (v : json) :
  ends_on_last_byte scanner_reset text v -> whole_value text v.
Proof.
  intros (init & last & sc' & -> & Hinit & Hlast). split.
  - rewrite scan_bytes_app, Hinit. cbn [scan_bytes str1]. now rewrite Hlast.
  - intros a b Hab Hb.
    destruct (start_of_snoc a b init last Hab Hb) as [c ->].
    exact (scan_start_continues _ _ _ _ Hinit).
Qed.

Ltac ends_fixed :=
  match goal with
  | |- ends_on_last_byte ?sc (?a ++ ?b) _ =>
    eapply (ends_seq sc _ a b); [vm_compute; reflexivity |]
  end.

Ltac ends_string :=
  match goal with
  | |- ends_on_last_byte _ (encode_string ?s ++ ?b) _ =>
    eapply (ends_seq _ _ (encode_string s) b); [apply scan_string_member |];
    generalize (read_back s); intro
  end.

Ltac ends_here init :=
  exists init, "}"%char; eexists;
  split; [reflexivity | split; vm_compute; reflexivity].

Lemma Present_body_ends (d : DNSProvider) (fqdn value : string) (ttl : Z) :
  ends_on_last_byte scanner_reset
    (fst (json_Marshal (Present_request d fqdn value ttl)))
    (marshal_ZoneUpdateRequest (read_back_request (Present_request d fqdn value ttl))).
Proof.
  rewrite Present_body.
  match goal with
  | |- ends_on_last_byte _ _ ?R =>
    let R' := eval cbv beta iota zeta delta
                [read_back_request Present_request marshal_ZoneUpdateRequest
                 marshal_slice marshal_RecordsAddRequest marshal_ZoneConfigSelector
                 slice_map map read_back_add AuthToken ZoneConfig sel_Name
                 RecordsToAdd RecordsToDelete add_Name add_Type add_Content add_TTL]
              in R in
    change R with R'
  end.
  change (read_back "TXT") with "TXT".
  change ("{" ++ jkey "authToken" ++ ?x) with (("{" ++ jkey "authToken") ++ x).
  ends_fixed. ends_string.
  change ("," ++ jkey "zoneConfig" ++ "{" ++ jkey "name" ++ ?x)
    with (("," ++ jkey "zoneConfig" ++ "{" ++ jkey "name") ++ x).
  ends_fixed. ends_string.
  change ("}," ++ jkey "recordsToAdd" ++ "[{" ++ jkey "name" ++ ?x)
    with (("}," ++ jkey "recordsToAdd" ++ "[{" ++ jkey "name") ++ x).
  ends_fixed. ends_string.
  change ("," ++ jkey "type" ++ quoted "TXT" ++ "," ++ jkey "content" ++ ?x)
    with (("," ++ jkey "type" ++ quoted "TXT" ++ "," ++ jkey "content") ++ x).
  ends_fixed. ends_string.
  change ("," ++ jkey "ttl" ++ ?x) with (("," ++ jkey "ttl") ++ x).
  ends_fixed.
  match goal with
  | |- ends_on_last_byte (mkScanner BeginValue ?st) _ _ =>
    destruct (scan_itoa ttl st) as (ns & lit & Hns & Hlit & Hscan)
  end.
  apply (ends_seq _ _ _ _ _ Hscan). rewrite <- Hlit.
  destruct Hns as [-> | ->];
    ends_here ("}]," ++ jkey "recordsToDelete" ++ "[]").
Qed.

Lemma CleanUp_body_ends (d : DNSProvider) (fqdn value : string) :
  ends_on_last_byte scanner_reset
    (fst (json_Marshal (CleanUp_request d fqdn value)))
    (marshal_ZoneUpdateRequest (read_back_request (CleanUp_request d fqdn value))).
Proof.
  rewrite CleanUp_body.
  match goal with
  | |- ends_on_last_byte _ _ ?R =>
    let R' := eval cbv beta iota zeta delta
                [read_back_request CleanUp_request marshal_ZoneUpdateRequest
                 marshal_slice marshal_RecordsDeleteRequest marshal_ZoneConfigSelector
                 slice_map map read_back_delete AuthToken ZoneConfig sel_Name
                 RecordsToAdd RecordsToDelete del_Name del_Type del_Content]
              in R in
    change R with R'
  end.
  change (read_back "TXT") with "TXT".
  change ("{" ++ jkey "authToken" ++ ?x) with (("{" ++ jkey "authToken") ++ x).
  ends_fixed. ends_string.
  change ("," ++ jkey "zoneConfig" ++ "{" ++ jkey "name" ++ ?x)
    with (("," ++ jkey "zoneConfig" ++ "{" ++ jkey "name") ++ x).
  ends_fixed. ends_string.
  change ("}," ++ jkey "recordsToAdd" ++ "[]," ++ jkey "recordsToDelete"
          ++ "[{" ++ jkey "name" ++ ?x)
    with (("}," ++ jkey "recordsToAdd" ++ "[]," ++ jkey "recordsToDelete"
           ++ "[{" ++ jkey "name") ++ x).
  ends_fixed. ends_string.
  change ("," ++ jkey "type" ++ quoted "TXT" ++ "," ++ jkey "content" ++ ?x)
    with (("," ++ jkey "type" ++ quoted "TXT" ++ "," ++ jkey "content") ++ x).
  ends_fixed. ends_string.
  ends_here "}]".
Qed.


Lemma Present_body_reads_back (d : DNSProvider) (fqdn value : string) (ttl : Z) :
  scan_bytes scanner_reset (fst (json_Marshal (Present_request d fqdn value ttl)))
  = Ended (marshal_ZoneUpdateRequest (read_back_request (Present_request d fqdn value ttl))).
Proof. exact (proj1 (ends_whole _ _ (Present_body_ends d fqdn value ttl))). Qed.

Lemma CleanUp_body_reads_back (d : DNSProvider) (fqdn value : string) :
  scan_bytes scanner_reset (fst (json_Marshal (CleanUp_request d fqdn value)))
  = Ended (marshal_ZoneUpdateRequest (read_back_request (CleanUp_request d fqdn value))).
Proof. exact (proj1 (ends_whole _ _ (CleanUp_body_ends d fqdn value))). Qed.

(** X11. Whatever the credentials, the record name and the value are (also
    non-ASCII text, control characters or bytes that are not UTF-8), the body
    [Present] and [CleanUp] send is one JSON value and nothing else: the
    scanner of encoding/json reads a value from it that ends with its last
    byte (from no shorter start of the body does it read a value or find an
    error), and what it reads is the envelope that was built, each string as
    [read_back] leaves it. *)
Theorem request_body_reads_back :
  forall d fqdn value ttl,
    whole_value (fst (json_Marshal (Present_request d fqdn value ttl)))
      (marshal_ZoneUpdateRequest (read_back_request (Present_request d fqdn value ttl)))
    /\ whole_value (fst (json_Marshal (CleanUp_request d fqdn value)))
         (marshal_ZoneUpdateRequest (read_back_request (CleanUp_request d fqdn value))).
Proof.
  intros d fqdn value ttl.
  split; apply ends_whole; [apply Present_body_ends | apply CleanUp_body_ends].
Qed.

Lemma read_back_requests_ascii (d : DNSProvider) (fqdn value : string) (ttl : Z) :
  ascii_only (authKey d) = true -> ascii_only (zoneName d) = true ->
  ascii_only (UnFqdn fqdn) = true -> ascii_only value = true ->
  read_back_request (Present_request d fqdn value ttl) = Present_request d fqdn value ttl
  /\ read_back_request (CleanUp_request d fqdn value) = CleanUp_request d fqdn value.
Proof.
  intros Hk Hz Hn Hv.
  unfold read_back_request, Present_request, CleanUp_request, read_back_add, read_back_delete.
  cbn [AuthToken ZoneConfig sel_Name RecordsToAdd RecordsToDelete slice_map map
       add_Name add_Type add_Content add_TTL del_Name del_Type del_Content].
  change (read_back "TXT") with "TXT".
  rewrite (read_back_ascii _ Hk), (read_back_ascii _ Hz),
    (read_back_ascii _ Hn), (read_back_ascii _ Hv).
  split; reflexivity.
Qed.

(** X12. With an ASCII key, zone name, record name and value the round trip is
    exact: reading the body that was sent gives back the envelope itself, so
    nothing of the key, the names, the value or the TTL is lost or changed on
    the way into the request. *)
Theorem ascii_request_round_trip (d : DNSProvider) (fqdn value : string) (ttl : Z) :
  ascii_only (authKey d) = true -> ascii_only (zoneName d) = true ->
  ascii_only (UnFqdn fqdn) = true -> ascii_only value = true ->
  scan_bytes scanner_reset (fst (json_Marshal (Present_request d fqdn value ttl)))
  = Ended (marshal_ZoneUpdateRequest (Present_request d fqdn value ttl))
  /\ scan_bytes scanner_reset (fst (json_Marshal (CleanUp_request d fqdn value)))
     = Ended (marshal_ZoneUpdateRequest (CleanUp_request d fqdn value)).
Proof.
  intros Hk Hz Hn Hv.
  destruct (read_back_requests_ascii d fqdn value ttl Hk Hz Hn Hv) as [Ha Hd].
  rewrite <- Ha at 2. rewrite <- Hd at 2.
  split; [apply Present_body_reads_back | apply CleanUp_body_reads_back].
Qed.

Lemma ascii_request_round_trip_witness :
  scan_bytes scanner_reset
    (fst (json_Marshal
            (Present_request sample_provider "_acme-challenge.example.com." "token" 120)))
  = Ended (marshal_ZoneUpdateRequest
             (Present_request sample_provider "_acme-challenge.example.com." "token" 120))
  /\ scan_bytes scanner_reset
       (fst (json_Marshal
               (CleanUp_request sample_provider "_acme-challenge.example.com." "token")))
     = Ended (marshal_ZoneUpdateRequest
                (CleanUp_request sample_provider "_acme-challenge.example.com." "token")).
Proof.
  apply (ascii_request_round_trip sample_provider "_acme-challenge.example.com."
           "token" 120); vm_compute; reflexivity.
Defined.

(** ** What follows the first value of the response *)

Lemma doRequest_same_value d body w code1 code2 b1 b2 :
  closed b1 = false -> closed b2 = false ->
  scan_text scanner_reset (body_text b1) (failure b1)
  = scan_text scanner_reset (body_text b2) (failure b2) ->
  let e1 := snd (fst (doRequest (respond code1 b1) d MethodPost "/zoneUpdate" body w)) in
  let e2 := snd (fst (doRequest (respond code2 b2) d MethodPost "/zoneUpdate" body w)) in
  (e1 = None <-> e2 = None)
  /\ (e1 = e2 \/ exists t1 t2, e1 = Some (api_error t1) /\ e2 = Some (api_error t2)).
Proof.
  intros H1 H2 Hscan. cbv zeta.
  rewrite !(doRequest_unfold _ d MethodPost "/zoneUpdate" body w _ (NewRequest_POST _ _)).
  cbv zeta. unfold respond. cbn [resp_Body].
  pose proof (Decode_text b1 zero_ZoneUpdateResponse H1) as D1.
  pose proof (Decode_text b2 zero_ZoneUpdateResponse H2) as D2.
  rewrite <- Hscan, <- D1 in D2.
  destruct (Decode b1 zero_ZoneUpdateResponse) as [[r1 err1] c1].
  destruct (Decode b2 zero_ZoneUpdateResponse) as [[r2 err2] c2].
  cbn [fst snd] in *. inversion D2; subst r2 err2.
  destruct err1 as [err |]; [split; [split; discriminate | now left] |].
  destruct (String.eqb (Status r1) "success"); [split; [tauto | now left] |].
  split; [split; discriminate |].
  right. unfold api_error, URL_String. cbn [URL].
  eexists. eexists. split; reflexivity.
Qed.

Lemma scan_text_trailing (text rest : string) (v : json) (f1 f2 : option string) :
  scan_bytes scanner_reset text = Ended v ->
  scan_text scanner_reset text f1 = scan_text scanner_reset (text ++ rest) f2.
Proof.
  intros H. unfold scan_text. rewrite scan_bytes_app, H. reflexivity.
Qed.

(** X13.  Only the first JSON value of the response body counts.  When the
    body starts with a complete value, whatever follows it (more bytes of any
    kind, or a read that fails) changes nothing in what [Present] and
    [CleanUp] return, but for the response text quoted in the message of the
    API error: the rest of the body is never checked to be JSON. *)
Theorem trailing_bytes_ignored :
  forall DNS01Record d domain token keyAuth w code1 code2 b1 b2 v rest,
    closed b1 = false -> closed b2 = false ->
    scan_bytes scanner_reset (body_text b1) = Ended v ->
    body_text b2 = body_text b1 ++ rest ->
    let same (e1 e2 : option error) :=
      (e1 = None <-> e2 = None)
      /\ (e1 = e2
          \/ exists t1 t2, e1 = Some (api_error t1) /\ e2 = Some (api_error t2)) in
    same (fst (Present DNS01Record (respond code1 b1) d domain token keyAuth w))
         (fst (Present DNS01Record (respond code2 b2) d domain token keyAuth w))
    /\ same (fst (CleanUp DNS01Record (respond code1 b1) d domain token keyAuth w))
            (fst (CleanUp DNS01Record (respond code2 b2) d domain token keyAuth w)).
Proof.
  intros DNS01Record d domain token keyAuth w code1 code2 b1 b2 v rest H1 H2 Hv Htext.
  cbv zeta. rewrite !Present_unfold, !CleanUp_unfold.
  destruct (DNS01Record domain keyAuth) as [[fqdn value] ttl].
  cbv zeta. cbn [fst].
  split; apply doRequest_same_value; try assumption;
    rewrite Htext; apply (scan_text_trailing _ _ v); exact Hv.
Qed.

(** A success answer alone, and the same answer followed by bytes that are no
    JSON and by a broken connection: [Present] and [CleanUp] return the
    same. *)
Lemma trailing_bytes_ignored_witness :
  let b1 := mkBody [sample_success_body] None false in
  let b2 := mkBody [sample_success_body; "}]trailing"] (Some "connection reset") false in
  let same (e1 e2 : option error) :=
    (e1 = None <-> e2 = None)
    /\ (e1 = e2
        \/ exists t1 t2, e1 = Some (api_error t1) /\ e2 = Some (api_error t2)) in
  same (fst (Present sample_DNS01Record (respond 200 b1) sample_provider
               "example.com" "token" "keyAuth" empty_world))
       (fst (Present sample_DNS01Record (respond 200 b2) sample_provider
               "example.com" "token" "keyAuth" empty_world))
  /\ same (fst (CleanUp sample_DNS01Record (respond 200 b1) sample_provider
                  "example.com" "token" "keyAuth" empty_world))
          (fst (CleanUp sample_DNS01Record (respond 200 b2) sample_provider
                  "example.com" "token" "keyAuth" empty_world)).
Proof.
  refine (trailing_bytes_ignored sample_DNS01Record sample_provider
            "example.com" "token" "keyAuth" empty_world 200 200
            (mkBody [sample_success_body] None false)
            (mkBody [sample_success_body; "}]trailing"] (Some "connection reset") false)
            _ "}]trailing" eq_refl eq_refl _ _); vm_compute; reflexivity.
Defined.

(** ** The echo of a record, through its text *)





